(** * Job distribution and worker lifecycle of the automation master

    A shallow embedding of the coordination core of the automation suite:
    the Worker and Job models (models/Worker.ts, models/Job.ts), the job
    service (services/JobService.ts) and the heartbeat route
    (app/api/workers/[id]/heartbeat/route.ts), followed by the properties
    checked against them.

    Conventions of the embedding.
    - A JavaScript number that is a counter, a priority or a timestamp is an
      integer [Z]; one that is a rate, an average or a usage figure is an
      exact rational [Qc] (no rounding, no NaN).
    - [new Date()] and [Date.now()] read a clock that is passed in as [now].
    - An optional field [f?: T] is [option T]; [undefined] is [None].
    - The Job collection is a finite map from [_id] to the document; the
      Worker collection, which is searched and sorted, is the list of its
      documents in natural order. [save] of a loaded document writes it
      back over the document with the same [_id].
    - One operation reads the clock once: every [new Date()] inside it is
      the same [now].
    - [console.log], [pubsub.publish] and [jobQueue.add] have no effect on
      the state modelled here (the latter two are no-op mocks in the source). *)

From Stdlib Require Import ZArith QArith Qcanon Qround Ascii String Lia.
From stdpp Require Import base option list gmap strings pretty sorting.

Open Scope Z_scope.

(** ** JavaScript helpers *)

Module JS.

(** [x || d] on numbers: [0] is falsy. *)
Definition num_or (x d : Z) : Z := if decide (x = 0) then d else x.

(** [x || d] on an optional number: [undefined] and [0] are falsy. *)
Definition optnum_or (x : option Z) (d : Z) : Z :=
  match x with
  | Some n => num_or n d
  | None => d
  end.

(** [x || d] on rationals. *)
Definition rat_or (x d : Qc) : Qc := if decide (x = 0%Qc) then d else x.

(** Truthiness of a string: the empty string is falsy. *)
Definition truthy (s : string) : bool :=
  match s with
  | EmptyString => false
  | String _ _ => true
  end.

(** [x || d] on an optional string. *)
Definition optstr_or (x : option string) (d : string) : string :=
  match x with
  | Some s => if truthy s then s else d
  | None => d
  end.

(** [s.startsWith(p)]. *)
Fixpoint startsWith (p s : string) : bool :=
  match p, s with
  | EmptyString, _ => true
  | String a p', String b s' => if decide (a = b) then startsWith p' s' else false
  | String _ _, EmptyString => false
  end.

(** [s.slice(n)]. *)
Fixpoint drop (n : nat) (s : string) : string :=
  match n, s with
  | O, _ => s
  | S n', String _ s' => drop n' s'
  | S _, EmptyString => EmptyString
  end.

(** [s.replace(pat, by)] with a string pattern: only the first occurrence
    is replaced; [by] holds no [$] here (it is a printed number). *)
Fixpoint replace (pat by_ s : string) : string :=
  if startsWith pat s then by_ +:+ drop (String.length pat) s
  else match s with
       | EmptyString => EmptyString
       | String c s' => String c (replace pat by_ s')
       end.

(** [n.toString()] for an integer [n]. *)
Definition toString (n : Z) : string := pretty n.

(** [Math.round]: to the nearest integer, halves upwards. *)
Definition round (x : Qc) : Z := Qfloor (x + Q2Qc (1 # 2))%Qc.

(** White space as [trim] sees it, within ASCII. *)
Definition is_space (a : ascii) : bool :=
  match a with
  | " "%char | "009"%char | "010"%char | "011"%char | "012"%char | "013"%char => true
  | _ => false
  end.

Fixpoint trimStart (s : string) : string :=
  match s with
  | EmptyString => EmptyString
  | String a s' => if is_space a then trimStart s' else s
  end.

Fixpoint trimEnd (s : string) : string :=
  match s with
  | EmptyString => EmptyString
  | String a s' =>
      match trimEnd s' with
      | EmptyString => if is_space a then EmptyString else String a EmptyString
      | t => String a t
      end
  end.

(** [s.trim()]. *)
Definition trim (s : string) : string := trimEnd (trimStart s).

(** A value printed inside a template literal: [undefined] prints as the
    word. *)
Definition template (x : option string) : string :=
  match x with
  | Some s => s
  | None => "undefined"%string
  end.

End JS.

(** ** models/Worker.ts *)

Module Worker.

Inductive Status := online | offline | busy | maintenance | error.

#[global] Instance Status_eq_dec : EqDecision Status.
Proof. solve_decision. Defined.

Record Connection := mkConnection {
  ip : string;
  lastSeen : Z
}.

Record Capabilities := mkCapabilities {
  maxConcurrentJobs : Z
}.

Record Resources := mkResources {
  currentJobs : Z;
  totalJobsProcessed : Z;
  successRate : Qc;
  averageJobDuration : Qc
}.

Record PriorityFilter := mkPriorityFilter {
  min : Z;
  max : Z
}.

Record Configuration := mkConfiguration {
  priorityFilter : PriorityFilter
}.

Record IWorker := mkWorker {
  _id : string;
  name : string;
  identifier : string;
  status : Status;
  connection : Connection;
  capabilities : Capabilities;
  resources : Resources;
  configuration : Configuration
}.

Definition with_status (s : Status) (w : IWorker) : IWorker :=
  mkWorker (_id w) (name w) (identifier w) s
           (connection w) (capabilities w) (resources w) (configuration w).

Definition with_resources (r : Resources) (w : IWorker) : IWorker :=
  mkWorker (_id w) (name w) (identifier w) (status w)
           (connection w) (capabilities w) r (configuration w).

Definition with_connection (c : Connection) (w : IWorker) : IWorker :=
  mkWorker (_id w) (name w) (identifier w) (status w)
           c (capabilities w) (resources w) (configuration w).

(** [updateHeartbeat]. *)
Definition updateHeartbeat (now : Z) (w : IWorker) : IWorker :=
  with_status online
    (with_connection (mkConnection (ip (connection w)) now) w).

(** [assignJob]: the counter is incremented first; the worker becomes
    [busy] once the counter has reached the declared capacity. *)
Definition assignJob (w : IWorker) : IWorker :=
  let r := resources w in
  let w1 := with_resources
              (mkResources (currentJobs r + 1) (totalJobsProcessed r)
                           (successRate r) (averageJobDuration r)) w in
  if decide (maxConcurrentJobs (capabilities w1) <= currentJobs (resources w1))
  then with_status busy w1
  else w1.

(** [completeJob(success = true, duration = 0)]. *)
Definition completeJob (success : bool) (duration : Qc) (w : IWorker) : IWorker :=
  let r := resources w in
  let currentJobs' := Z.max 0 (currentJobs r - 1) in
  let totalJobs := totalJobsProcessed r + 1 in
  let currentSuccessRate := successRate r in
  let newSuccessCount :=
    (currentSuccessRate * Qc_of_Z (totalJobs - 1)
     + (if success then 1 else 0))%Qc in
  let successRate' := (newSuccessCount / Qc_of_Z totalJobs)%Qc in
  let currentAvg := averageJobDuration r in
  let averageJobDuration' :=
    ((currentAvg * Qc_of_Z (totalJobs - 1) + duration) / Qc_of_Z totalJobs)%Qc in
  let w1 := with_resources
              (mkResources currentJobs' totalJobs successRate' averageJobDuration') w in
  if decide (currentJobs (resources w1) < maxConcurrentJobs (capabilities w1))
  then with_status online w1
  else w1.

(** The two events that move the job counter of one worker. *)
Inductive Event :=
| Assign
| Complete (success : bool) (duration : Qc).

Definition step (w : IWorker) (e : Event) : IWorker :=
  match e with
  | Assign => assignJob w
  | Complete s d => completeJob s d w
  end.

(** The states a worker goes through under a sequence of events, the
    starting state included. *)
Fixpoint history (w : IWorker) (es : list Event) : list IWorker :=
  match es with
  | [] => [w]
  | e :: es' => w :: history (step w e) es'
  end.

(** An [assignJob] is admitted when the worker it is applied to has a free
    slot, which [assignJob] takes for granted. *)
Definition admitted (w : IWorker) (e : Event) : bool :=
  match e with
  | Assign => bool_decide (currentJobs (resources w) < maxConcurrentJobs (capabilities w))
  | Complete _ _ => true
  end.

Fixpoint all_admitted (w : IWorker) (es : list Event) : bool :=
  match es with
  | [] => true
  | e :: es' => admitted w e && all_admitted (step w e) es'
  end.

(** The capacity invariant, in its two halves. *)
Definition nonnegative_jobs (w : IWorker) : Prop := 0 <= currentJobs (resources w).

Definition within_capacity (w : IWorker) : Prop :=
  currentJobs (resources w) <= maxConcurrentJobs (capabilities w).

(** A worker as the schema's defaults leave it, with a declared capacity. *)
Definition registered (id : string) (capacity : Z) : IWorker :=
  mkWorker id id id offline (mkConnection "127.0.0.1" 0) (mkCapabilities capacity)
           (mkResources 0 0 0%Qc 0%Qc) (mkConfiguration (mkPriorityFilter 1 10)).

End Worker.

(** ** models/Job.ts *)

Module Job.

Inductive JobType := single | batch | scheduled.

Inductive Status := pending | queued | running | completed | failed | cancelled.

#[global] Instance JobType_eq_dec : EqDecision JobType.
Proof. solve_decision. Defined.

#[global] Instance Status_eq_dec : EqDecision Status.
Proof. solve_decision. Defined.

Record LogEntry := mkLog {
  timestamp : Z;
  level : string;
  message : string
}.

Record WorkerInfo := mkWorkerInfo {
  info_id : string;
  info_name : string;
  info_ip : string;
  assignedAt : Z
}.

(** [execution.results] is an open object; it is kept as a map from field
    name to the serialised value. *)
Record Execution := mkExecution {
  startTime : option Z;
  endTime : option Z;
  duration : option Z;
  attempts : Z;
  lastAttempt : option Z;
  logs : list LogEntry;
  results : gmap string string
}.

Record Metadata := mkMetadata {
  createdBy : string;
  createdAt : Z;
  updatedAt : Z;
  tags : list string
}.

(** The fields of [IJob] the lifecycle reads or writes ([description],
    [config] and [schedule] are carried along untouched by every operation
    below and are left out). *)
Record IJob := mkJob {
  _id : string;
  name : string;
  url : string;
  type : JobType;
  status : Status;
  priority : Z;
  assignedWorker : option string;
  workerInfo : option WorkerInfo;
  execution : Execution;
  metadata : Metadata
}.

Definition with_status (s : Status) (j : IJob) : IJob :=
  mkJob (_id j) (name j) (url j) (type j) s (priority j)
        (assignedWorker j) (workerInfo j) (execution j) (metadata j).

Definition with_execution (e : Execution) (j : IJob) : IJob :=
  mkJob (_id j) (name j) (url j) (type j) (status j) (priority j)
        (assignedWorker j) (workerInfo j) e (metadata j).

Definition with_updatedAt (t : Z) (j : IJob) : IJob :=
  let m := metadata j in
  mkJob (_id j) (name j) (url j) (type j) (status j) (priority j)
        (assignedWorker j) (workerInfo j) (execution j)
        (mkMetadata (createdBy m) (createdAt m) t (tags m)).

Definition with_assignment (a : option string) (i : option WorkerInfo) (j : IJob) : IJob :=
  mkJob (_id j) (name j) (url j) (type j) (status j) (priority j)
        a i (execution j) (metadata j).

(** [addLog(level, message)]: the entry is pushed at the end of the log;
    the [save] that follows stamps [metadata.updatedAt] (schema option
    [timestamps]). *)
Definition addLog (lvl msg : string) (now : Z) (j : IJob) : IJob :=
  let e := execution j in
  with_updatedAt now
    (with_execution
       (mkExecution (startTime e) (endTime e) (duration e) (attempts e)
                    (lastAttempt e) (logs e ++ [mkLog now lvl msg]) (results e)) j).

(** [updateStatus(status, data?)]. The new status is written before
    anything else; there is no look at the status the job had. *)
Definition updateStatus (st : Status) (data : option (gmap string string))
           (now : Z) (j : IJob) : IJob :=
  let j1 := with_updatedAt now (with_status st j) in
  let e := execution j1 in
  let e1 :=
    if decide (st = running) then
      mkExecution (Some now) (endTime e) (duration e) (attempts e + 1)
                  (Some now) (logs e) (results e)
    else if decide (st = completed \/ st = failed) then
      mkExecution (startTime e) (Some now)
                  (match startTime e with
                   | Some t0 => Some (now - t0)
                   | None => duration e
                   end)
                  (attempts e) (lastAttempt e) (logs e) (results e)
    else e in
  let e2 :=
    match data with
    | Some d =>
        mkExecution (startTime e1) (endTime e1) (duration e1) (attempts e1)
                    (lastAttempt e1) (logs e1) (d ∪ results e1)
    | None => e1
    end in
  with_execution e2 j1.

(** The transition graph as the specification draws it: pending to
    queued, queued to running, running to completed or failed, pending,
    queued or running to cancelled, failed to pending. [updateStatus] does
    not consult it; it is here to say which changes the specification
    calls illegal. *)
Definition listed_transition (from to : Status) : bool :=
  match from, to with
  | pending, queued
  | queued, running
  | running, completed
  | running, failed
  | pending, cancelled
  | queued, cancelled
  | running, cancelled
  | failed, pending => true
  | _, _ => false
  end.

End Job.

(** ** services/JobService.ts *)

Module JobService.

(** What the service takes from its platform: the identifiers [nanoid()]
    hands out, in the order of the calls, and whether [new URL(v)] accepts
    a string. *)
Class Platform := {
  nanoid : nat -> string;
  URL_parses : string -> bool
}.

(** The errors the service can throw: a mongoose validation error with
    the paths that failed, the store's duplicate key error on [_id], and
    [new Error('Job not found')]. *)
Inductive Error :=
| ValidationError (paths : list string)
| DuplicateKeyError
| JobNotFound.

Inductive Result (A : Type) :=
| Ok (a : A)
| Throw (e : Error).
Arguments Ok {A} a.
Arguments Throw {A} e.

(** [CreateJobData]. [name] and [url] are declared as strings but reach
    [createJob] unchecked (the batch expander can pass [undefined]), so
    they are optional here; the schema's [required] decides. *)
Record CreateJobData := mkCreateJobData {
  name : option string;
  url : option string;
  type : option Job.JobType;
  priority : option Z;
  createdBy : string;
  tags : option (list string)
}.

(** The store: the Job collection by [_id], the Worker collection in
    natural order, and the number of identifiers [nanoid] has issued. *)
Record DB := mkDB {
  jobs : gmap string Job.IJob;
  workers : list Worker.IWorker;
  issued : nat
}.

Definition with_jobs (js : gmap string Job.IJob) (db : DB) : DB :=
  mkDB js (workers db) (issued db).

(** [worker.save()] of a loaded worker. *)
Definition saveWorker (w : Worker.IWorker) (ws : list Worker.IWorker) : list Worker.IWorker :=
  (fun x => if decide (Worker._id x = Worker._id w) then w else x) <$> ws.

(** [Worker.findOne(q)]: the first document that matches. *)
Definition findOne (q : Worker.IWorker -> bool) (ws : list Worker.IWorker) : option Worker.IWorker :=
  head (filter (fun w => Is_true (q w)) ws).

(** *** The schema's validators, run by [save] on a new job

    [name]: trimmed, required, at most 255 characters; [url]: required and
    accepted by [new URL]; [priority]: [min: 1], [max: 10];
    [metadata.createdBy]: required. A required string fails when it is
    missing or empty. *)

Definition name_valid (n : option string) : bool :=
  match n with
  | Some s => JS.truthy (JS.trim s) && bool_decide (String.length (JS.trim s) <= 255)%nat
  | None => false
  end.

Definition url_valid `{Platform} (u : option string) : bool :=
  match u with
  | Some s => JS.truthy s && URL_parses s
  | None => false
  end.

Definition priority_valid (p : Z) : bool :=
  bool_decide (1 <= p) && bool_decide (p <= 10).

Definition validate `{Platform} (n u : option string) (p : Z) (by_ : string) : list string :=
  (if name_valid n then [] else ["name"%string])
  ++ (if url_valid u then [] else ["url"%string])
  ++ (if priority_valid p then [] else ["priority"%string])
  ++ (if JS.truthy by_ then [] else ["metadata.createdBy"%string]).

(** [queueJob(jobId)]. *)
Definition queueJob (jobId : string) (now : Z) (db : DB) : DB * Result unit :=
  match jobs db !! jobId with
  | None => (db, Throw JobNotFound)
  | Some job =>
      let job1 := Job.updateStatus Job.queued None now job in
      let job2 := Job.addLog "info" "Job queued for execution" now job1 in
      (with_jobs (<[jobId := job2]> (jobs db)) db, Ok tt)
  end.

(** [createJob(jobData)]. The document built by [new Job] is saved, a
    [single] job is queued through a second copy loaded by [queueJob], and
    the first copy, which still says [pending], gets the creation log and
    is returned; its [save] pushes the log entry onto the stored
    document. *)
Definition createJob `{Platform} (jobData : CreateJobData) (now : Z) (db : DB)
  : DB * Result Job.IJob :=
  let jobId := nanoid (issued db) in
  let db0 := mkDB (jobs db) (workers db) (S (issued db)) in
  let ty := default Job.single (type jobData) in
  let prio := JS.optnum_or (priority jobData) 5 in
  let job :=
    Job.mkJob jobId (JS.trim (default ""%string (name jobData)))
              (default ""%string (url jobData)) ty Job.pending prio None None
              (Job.mkExecution None None None 0 None [] ∅)
              (Job.mkMetadata (createdBy jobData) now now (default [] (tags jobData))) in
  match validate (name jobData) (url jobData) prio (createdBy jobData) with
  | (_ :: _) as paths => (db0, Throw (ValidationError paths))
  | [] =>
      match jobs db0 !! jobId with
      | Some _ => (db0, Throw DuplicateKeyError)
      | None =>
          let db1 := with_jobs (<[jobId := job]> (jobs db0)) db0 in
          let queued :=
            if decide (Job.type job = Job.single) then queueJob jobId now db1
            else (db1, Ok tt) in
          match queued with
          | (db2, Throw e) => (db2, Throw e)
          | (db2, Ok _) =>
              (with_jobs (alter (Job.addLog "info" "Job created successfully" now)
                                jobId (jobs db2)) db2,
               Ok (Job.addLog "info" "Job created successfully" now job))
          end
      end
  end.

(** *** Worker queries of [assignJobToWorker]

    The operand of a comparison in a filter is a value: a number or a
    text. The filters below are plain [find] / [findOne] filters, none
    goes through [$expr], so a text that starts with [$] is a text like
    any other and not the field it spells. *)

Inductive Operand :=
| Number (n : Z)
| Text (s : string).

(** [{ $lt: operand }] on a numeric field: a comparison matches values
    of the operand's own type only, so no number is below a text. *)
Definition query_lt (field : Z) (operand : Operand) : bool :=
  match operand with
  | Number n => bool_decide (field < n)
  | Text _ => false
  end.

(** The clause ['resources.currentJobs': { $lt: '$capabilities.maxConcurrentJobs' }],
    with the operand as the source writes it, in quotes. A store that
    casts the operand to the type of the path first cannot cast this one
    and turns the query down; no worker comes back from it that way
    either. *)
Definition has_capacity (w : Worker.IWorker) : bool :=
  query_lt (Worker.currentJobs (Worker.resources w))
           (Text "$capabilities.maxConcurrentJobs").

(** The query of the pinned branch: [identifier], [status] and capacity. *)
Definition pinned_query (workerId : string) (w : Worker.IWorker) : bool :=
  bool_decide (Worker.identifier w = workerId)
  && bool_decide (Worker.status w = Worker.online)
  && has_capacity w.

(** The query of the automatic branch: [status], capacity and the two
    bounds of the priority filter. *)
Definition available_query (jobPriority : Z) (w : Worker.IWorker) : bool :=
  bool_decide (Worker.status w = Worker.online)
  && has_capacity w
  && bool_decide (Worker.min (Worker.priorityFilter (Worker.configuration w)) <= jobPriority)
  && bool_decide (jobPriority <= Worker.max (Worker.priorityFilter (Worker.configuration w))).

(** The sort specification [{ currentJobs: 1, successRate: -1,
    averageJobDuration: 1 }]: [rank_le a b] when [a] may come before [b]. *)
Definition rank_le (a b : Worker.IWorker) : Prop :=
  let ra := Worker.resources a in
  let rb := Worker.resources b in
  Worker.currentJobs ra < Worker.currentJobs rb
  \/ (Worker.currentJobs ra = Worker.currentJobs rb
      /\ ((Worker.successRate rb < Worker.successRate ra)%Qc
          \/ (Worker.successRate ra = Worker.successRate rb
              /\ (Worker.averageJobDuration ra <= Worker.averageJobDuration rb)%Qc))).

#[global] Instance rank_le_dec : RelDecision rank_le.
Proof. intros a b. unfold rank_le. cbv zeta. apply _. Defined.

(** [Worker.find(q).sort(...)]: which of several workers equal on the
    three keys comes first is not fixed by the query. *)
Definition findSorted (q : Worker.IWorker -> bool) (ws : list Worker.IWorker)
  : list Worker.IWorker :=
  merge_sort rank_le (filter (fun w => Is_true (q w)) ws).

(** The worker [assignJobToWorker] picks; [if (workerId)] takes the pinned
    branch for a non-empty identifier only. *)
Definition selectWorker (job : Job.IJob) (workerId : option string)
           (ws : list Worker.IWorker) : option Worker.IWorker :=
  match workerId with
  | Some wid =>
      if JS.truthy wid then findOne (pinned_query wid) ws
      else head (findSorted (available_query (Job.priority job)) ws)
  | None => head (findSorted (available_query (Job.priority job)) ws)
  end.

(** [assignJobToWorker(jobId, workerId?)]. The worker returned is the
    loaded document after [assignJob] has run on it. *)
Definition assignJobToWorker (jobId : string) (workerId : option string)
           (now : Z) (db : DB) : DB * Result (option Worker.IWorker) :=
  match jobs db !! jobId with
  | None => (db, Throw JobNotFound)
  | Some job =>
      match selectWorker job workerId (workers db) with
      | Some worker =>
          let job1 :=
            Job.with_updatedAt now
              (Job.with_assignment
                 (Some (Worker.identifier worker))
                 (Some (Job.mkWorkerInfo (Worker.identifier worker) (Worker.name worker)
                                         (Worker.ip (Worker.connection worker)) now))
                 job) in
          let worker1 := Worker.assignJob worker in
          let job2 :=
            Job.addLog "info"
              ("Job assigned to worker: " +:+ Worker.name worker
               +:+ " (" +:+ Worker.identifier worker +:+ ")") now job1 in
          (mkDB (<[jobId := job2]> (jobs db)) (saveWorker worker1 (workers db)) (issued db),
           Ok (Some worker1))
      | None => (db, Ok None)
      end
  end.

(** [cancelJob(jobId, reason?)]. The only test before the status is
    written is that the job exists. *)
Definition cancelJob (jobId : string) (reason : option string) (now : Z) (db : DB)
  : DB * bool :=
  match jobs db !! jobId with
  | None => (db, false)
  | Some job =>
      let job1 := Job.updateStatus Job.cancelled None now job in
      let job2 :=
        Job.addLog "info"
          ("Job cancelled: " +:+ JS.optstr_or reason "No reason provided") now job1 in
      let ws :=
        match Job.assignedWorker job2 with
        | Some wid =>
            if JS.truthy wid then
              match findOne (fun w => bool_decide (Worker.identifier w = wid)) (workers db) with
              | Some worker => saveWorker (Worker.completeJob false 0%Qc worker) (workers db)
              | None => workers db
              end
            else workers db
        | None => workers db
        end in
      (mkDB (<[jobId := job2]> (jobs db)) ws (issued db), true)
  end.

(** [retryJob(jobId)]: only a [failed] job is retried. *)
Definition retryJob (jobId : string) (now : Z) (db : DB) : DB * Result bool :=
  match jobs db !! jobId with
  | None => (db, Ok false)
  | Some job =>
      if decide (Job.status job = Job.failed) then
        let job1 :=
          Job.with_updatedAt now
            (Job.with_assignment None None (Job.with_status Job.pending job)) in
        let db1 := with_jobs (<[jobId := job1]> (jobs db)) db in
        match queueJob jobId now db1 with
        | (db2, Throw e) => (db2, Throw e)
        | (db2, Ok _) =>
            (with_jobs (alter (Job.addLog "info" "Job manually retried" now) jobId (jobs db2)) db2,
             Ok true)
        end
      else (db, Ok false)
  end.

(** *** Batch expansion *)

Inductive UrlPatternType := url_sequential | url_list | url_pattern.

Inductive NamePatternType := name_sequential | name_custom.

#[global] Instance UrlPatternType_eq_dec : EqDecision UrlPatternType.
Proof. solve_decision. Defined.

#[global] Instance NamePatternType_eq_dec : EqDecision NamePatternType.
Proof. solve_decision. Defined.

Record UrlPattern := mkUrlPattern {
  url_type : UrlPatternType;
  urls : option (list string);
  startNumber : option Z;
  pattern : option string
}.

Record NamePattern := mkNamePattern {
  name_type : NamePatternType;
  prefix : option string;
  suffix : option string;
  customNames : option (list string)
}.

Record Variations := mkVariations {
  priorities : option (list Z);
  var_tags : option (list (list string))
}.

Record BatchJobCreationData := mkBatch {
  baseJob : CreateJobData;
  quantity : nat;
  urlPattern : option UrlPattern;
  namePattern : option NamePattern;
  variations : option Variations
}.

(** [for (let i = 0; i < quantity; i++)]: the values [i] takes. *)
Definition indices (quantity : nat) : list nat := seq 0 quantity.

(** [generateUrls(quantity, urlPattern, baseUrl)]. An element is [None]
    where the source pushes [undefined]. *)
Definition generateUrls (quantity : nat) (urlPattern : option UrlPattern)
           (baseUrl : option string) : list (option string) :=
  let sequential :=
    match urlPattern with
    | None => true
    | Some p => bool_decide (url_type p = url_sequential)
    end in
  if sequential then
    let startNum := JS.optnum_or (urlPattern ≫= startNumber) 1 in
    let pat := JS.optstr_or (urlPattern ≫= pattern)
                            (JS.template baseUrl +:+ "?page={number}") in
    (fun i => Some (JS.replace "{number}" (JS.toString (startNum + Z.of_nat i)) pat))
      <$> indices quantity
  else
    match urlPattern with
    | Some (mkUrlPattern url_list (Some us) _ _) =>
        (fun i => us !! (i mod length us)%nat) <$> indices quantity
    | _ => (fun _ => baseUrl) <$> indices quantity
    end.

(** [generateNames(quantity, namePattern, baseName)]. *)
Definition generateNames (quantity : nat) (namePattern : option NamePattern)
           (baseName : option string) : list (option string) :=
  let sequential :=
    match namePattern with
    | None => true
    | Some p => bool_decide (name_type p = name_sequential)
    end in
  if sequential then
    let pre :=
      match namePattern ≫= prefix with
      | Some s => if JS.truthy s then s else JS.template baseName
      | None => JS.template baseName
      end in
    let suf := JS.optstr_or (namePattern ≫= suffix) "" in
    (fun i => Some (pre +:+ " " +:+ JS.toString (Z.of_nat i + 1)
                    +:+ (if JS.truthy suf then " " +:+ suf else "")))
      <$> indices quantity
  else
    match namePattern with
    | Some (mkNamePattern name_custom _ _ (Some ns)) =>
        (fun i => ns !! (i mod length ns)%nat) <$> indices quantity
    | _ =>
        (fun i => Some (JS.template baseName +:+ " " +:+ JS.toString (Z.of_nat i + 1)))
          <$> indices quantity
    end.

(** [getVariation(variations, index, defaultValue)]. *)
Definition getVariation {T : Type} (vs : option (list T)) (index : nat) (defaultValue : T) : T :=
  match vs with
  | None | Some [] => defaultValue
  | Some l => default defaultValue (l !! (index mod length l)%nat)
  end.

(** The job data the loop of [createBatchJobs] builds for index [i]. *)
Definition batchJobData (batchData : BatchJobCreationData)
           (urls_ names : list (option string)) (i : nat) (now : Z) : CreateJobData :=
  let base := baseJob batchData in
  mkCreateJobData
    (mjoin (names !! i))
    (mjoin (urls_ !! i))
    (Some Job.scheduled)
    (Some (getVariation (variations batchData ≫= priorities) i
                        (JS.optnum_or (priority base) 5)))
    (createdBy base)
    (Some (default [] (tags base)
           ++ ["batch-job"%string; ("batch-" +:+ JS.toString now)%string]
           ++ getVariation (variations batchData ≫= var_tags) i [])).

Record BatchResult := mkBatchResult {
  batch_success : bool;
  batch_jobs : list Job.IJob;
  totalCreated : nat;
  errors : list (nat * Error)
}.

(** One turn of the loop: job [i] is created, or its error is recorded as
    the pair of the job number [i + 1] and the error thrown (the source
    formats the two into one message). *)
Definition batchStep `{Platform} (batchData : BatchJobCreationData)
           (urls_ names : list (option string)) (clock : nat -> Z)
           (acc : DB * list Job.IJob * list (nat * Error)) (i : nat)
  : DB * list Job.IJob * list (nat * Error) :=
  let '(db, createdJobs, errs) := acc in
  match createJob (batchJobData batchData urls_ names i (clock i)) (clock i) db with
  | (db1, Ok job) => (db1, createdJobs ++ [job], errs)
  | (db1, Throw e) => (db1, createdJobs, errs ++ [(S i, e)])
  end.

(** [createBatchJobs(batchData)]; [clock i] is the time of turn [i]. *)
Definition createBatchJobs `{Platform} (batchData : BatchJobCreationData)
           (clock : nat -> Z) (db : DB) : DB * BatchResult :=
  let urls_ := generateUrls (quantity batchData) (urlPattern batchData)
                            (url (baseJob batchData)) in
  let names := generateNames (quantity batchData) (namePattern batchData)
                             (name (baseJob batchData)) in
  let '(db1, createdJobs, errs) :=
    foldl (batchStep batchData urls_ names clock) (db, [], [])
          (indices (quantity batchData)) in
  (db1, mkBatchResult (bool_decide (length errs = 0%nat)) createdJobs
                      (length createdJobs) errs).



End JobService.

(** ** app/api/jobs/[id]/route.ts *)

Module JobRoute.

Record Response := mkResponse {
  code : Z;
  success : bool;
  text : string
}.

(** [DELETE /jobs/{id}?reason=]. *)
Definition DELETE (id : string) (reason : option string) (now : Z) (db : JobService.DB)
  : JobService.DB * Response :=
  let reason1 := JS.optstr_or reason "Manual cancellation" in
  let '(db1, ok) := JobService.cancelJob id (Some reason1) now db in
  if ok then (db1, mkResponse 200 true "Job cancelled successfully")
  else (db1, mkResponse 404 false "Job not found or cannot be cancelled").

End JobRoute.

(** ** app/api/workers/[id]/heartbeat/route.ts *)

Module Heartbeat.

Inductive Status := online | busy | offline.

#[global] Instance Status_eq_dec : EqDecision Status.
Proof. solve_decision. Defined.

Record Metrics := mkMetrics {
  memoryUsage : Qc;
  cpuUsage : Qc;
  diskUsage : Qc;
  networkUsage : Qc;
  jobsCompleted : Z;
  jobsFailed : Z;
  averageResponseTime : Qc
}.

Record Performance := mkPerformance {
  successRate : Qc;
  averageJobDuration : Qc
}.

Record Capabilities := mkCapabilities {
  maxConcurrentJobs : Z;
  supportedBrowsers : list string;
  memory : Z;
  cpu : Z
}.

Record HeartbeatData := mkHeartbeatData {
  status : Status;
  currentJobs : Z;
  metrics : Metrics;
  performance : Performance;
  capabilities : option Capabilities
}.

(** An entry of [workerRegistry]. [w_capabilities = None] is the empty
    object the source falls back to. *)
Record Entry := mkEntry {
  w_id : string;
  w_status : Status;
  w_lastSeen : Z;
  w_currentJobs : Z;
  w_metrics : Metrics;
  w_lastUpdated : Z;
  w_performance : Performance;
  w_totalJobsProcessed : Z;
  w_totalJobsFailed : Z;
  w_capabilities : option Capabilities
}.

Record ResourceUtilization := mkResourceUtilization {
  u_cpu : Qc;
  u_memory : Qc;
  u_disk : Qc;
  u_network : Qc
}.

Record JobStats := mkJobStats {
  total : Z;
  completed : Z;
  failed : Z;
  js_successRate : Qc;
  averageDuration : Qc
}.

Record WorkerStats := mkWorkerStats {
  healthScore : Z;
  efficiency : Z;
  resourceUtilization : ResourceUtilization;
  jobStats : JobStats
}.

Definition Qcmax (a b : Qc) : Qc := if decide (a <= b)%Qc then b else a.

(** [calculateHealthScore(worker)]. *)
Definition calculateHealthScore (worker : Entry) : Z :=
  let m := w_metrics worker in
  let score0 := Qc_of_Z 100 in
  let cpuPenalty := (Qcmax 0 (cpuUsage m - Qc_of_Z 80) * Qc_of_Z 2)%Qc in
  let score1 := (score0 - cpuPenalty)%Qc in
  let memoryPenalty := (Qcmax 0 (memoryUsage m - Qc_of_Z 3000) / Qc_of_Z 100)%Qc in
  let score2 := (score1 - memoryPenalty)%Qc in
  let rate := JS.rat_or (successRate (w_performance worker)) (Qc_of_Z 100) in
  let score3 :=
    if decide (rate < Qc_of_Z 95)%Qc
    then (score2 - (Qc_of_Z 95 - rate) * Qc_of_Z 2)%Qc
    else score2 in
  let score4 :=
    match w_status worker with
    | offline => 0%Qc
    | online => (score3 + Qc_of_Z 10)%Qc
    | busy => score3
    end in
  Z.max 0 (Z.min 100 (JS.round score4)).

(** [calculateEfficiency(worker)]. *)
Definition calculateEfficiency (worker : Entry) : Z :=
  let maxJobs := JS.optnum_or (maxConcurrentJobs <$> w_capabilities worker) 3 in
  let rate := JS.rat_or (successRate (w_performance worker)) (Qc_of_Z 100) in
  let utilization :=
    if decide (0 < maxJobs)
    then (Qc_of_Z (w_currentJobs worker) / Qc_of_Z maxJobs * Qc_of_Z 100)%Qc
    else 0%Qc in
  JS.round ((utilization + rate) / Qc_of_Z 2)%Qc.

(** [calculateWorkerStats(worker)]. *)
Definition calculateWorkerStats (worker : Entry) : WorkerStats :=
  let m := w_metrics worker in
  let p := w_performance worker in
  mkWorkerStats
    (calculateHealthScore worker)
    (calculateEfficiency worker)
    (mkResourceUtilization (cpuUsage m) (memoryUsage m) (diskUsage m) (networkUsage m))
    (mkJobStats (w_totalJobsProcessed worker + w_totalJobsFailed worker)
                (w_totalJobsProcessed worker) (w_totalJobsFailed worker)
                (successRate p) (averageJobDuration p)).

Record Instructions := mkInstructions {
  i_maxConcurrentJobs : Z;
  reportingInterval : Z;
  healthCheckInterval : Z
}.

Record FleetStats := mkFleetStats {
  globalWorkerCount : nat;
  onlineWorkers : nat;
  totalActiveJobs : Z
}.

Record Body := mkBody {
  success : bool;
  timestamp : Z;
  instructions : Instructions;
  stats : FleetStats;
  calculated : WorkerStats
}.

(** What the handler answers: the JSON body with status 200, or the body
    of the [catch] with status 500. *)
Inductive Response :=
| Json200 (body : Body)
| Json500 (error : string).

(** [Array.from(workerRegistry.values())]. *)
Definition values (registry : gmap string Entry) : list Entry :=
  (map_to_list registry).*2.

(** [POST /workers/{id}/heartbeat]. The body is [None] when it does not
    parse into a [HeartbeatData] (the only way into the [catch]). The entry
    is built from the heartbeat alone, but for the capabilities, which
    fall back to those already recorded. *)
Definition POST (workerId : string) (body : option HeartbeatData) (now : Z)
           (workerRegistry : gmap string Entry) : gmap string Entry * Response :=
  match body with
  | None => (workerRegistry, Json500 "Failed to process heartbeat")
  | Some heartbeatData =>
      let existingCapabilities := workerRegistry !! workerId ≫= w_capabilities in
      let m := metrics heartbeatData in
      let updatedWorker :=
        mkEntry workerId (status heartbeatData) now (currentJobs heartbeatData)
                m now (performance heartbeatData) (jobsCompleted m) (jobsFailed m)
                (match capabilities heartbeatData with
                 | Some c => Some c
                 | None => existingCapabilities
                 end) in
      let registry1 := <[workerId := updatedWorker]> workerRegistry in
      let response :=
        mkBody true now
               (mkInstructions
                  (JS.optnum_or (maxConcurrentJobs <$> capabilities heartbeatData) 3)
                  30000 300000)
               (mkFleetStats
                  (size registry1)
                  (length (filter (fun w => w_status w = online) (values registry1)))
                  (foldl (fun sum w => sum + w_currentJobs w) 0 (values registry1)))
               (calculateWorkerStats updatedWorker) in
      (registry1, Json200 response)
  end.

End Heartbeat.

(** ** models/Worker.ts: monitoring and liveness *)

Module WorkerMonitoring.

(** [l.slice(-n)]: the last [n] elements, all of them when there are
    fewer. *)
Definition slice_last {A : Type} (n : nat) (l : list A) : list A :=
  drop (length l - n) l.

Inductive Health := healthy | warning | critical.

Record Checks := mkChecks {
  browserConnection : bool;
  check_memoryUsage : bool;
  diskSpace : bool;
  networkConnectivity : bool
}.

Record HealthCheck := mkHealthCheck {
  hc_timestamp : Z;
  hc_status : Health;
  checks : Checks
}.

Inductive ErrorType := connection | job_execution | resource | system.

Record ErrorEntry := mkErrorEntry {
  err_timestamp : Z;
  err_type : ErrorType;
  err_message : string;
  resolved : bool
}.

Record MetricsData := mkMetricsData {
  jobsCompleted : Z;
  jobsFailed : Z;
  averageResponseTime : Qc;
  memoryUsage : Qc;
  cpuUsage : Qc
}.

Record MetricSample := mkMetricSample {
  m_timestamp : Z;
  data : MetricsData
}.

(** The part of a worker document the three recording methods touch:
    [monitoring.healthChecks], [monitoring.errors], [monitoring.metrics],
    [resources.memoryUsage] and [resources.cpuUsage]. *)
Record Monitoring := mkMonitoring {
  healthChecks : list HealthCheck;
  errors : list ErrorEntry;
  metrics : list MetricSample;
  res_memoryUsage : option Qc;
  res_cpuUsage : option Qc
}.

(** [addHealthCheck(checks, status = 'healthy')]: push, then keep the
    last 100. *)
Definition addHealthCheck (c : Checks) (st : Health) (now : Z) (m : Monitoring) : Monitoring :=
  let pushed := healthChecks m ++ [mkHealthCheck now st c] in
  mkMonitoring (if decide (100 < length pushed)%nat then slice_last 100 pushed else pushed)
               (errors m) (metrics m) (res_memoryUsage m) (res_cpuUsage m).

(** [addError(type, message)]: push, then keep the last 500. *)
Definition addError (ty : ErrorType) (msg : string) (now : Z) (m : Monitoring) : Monitoring :=
  let pushed := errors m ++ [mkErrorEntry now ty msg false] in
  mkMonitoring (healthChecks m)
               (if decide (500 < length pushed)%nat then slice_last 500 pushed else pushed)
               (metrics m) (res_memoryUsage m) (res_cpuUsage m).

(** [updateMetrics(metrics)]: push, keep the last 1000, and copy the two
    usage figures into [resources]. *)
Definition updateMetrics (d : MetricsData) (now : Z) (m : Monitoring) : Monitoring :=
  let pushed := metrics m ++ [mkMetricSample now d] in
  mkMonitoring (healthChecks m) (errors m)
               (if decide (1000 < length pushed)%nat then slice_last 1000 pushed else pushed)
               (Some (memoryUsage d)) (Some (cpuUsage d)).

(** [markOfflineWorkers()]: every worker last seen more than two minutes
    ago and not yet [offline] is set [offline]. *)
Definition is_lapsed (now : Z) (w : Worker.IWorker) : Prop :=
  Worker.lastSeen (Worker.connection w) < now - 2 * 60 * 1000
  /\ Worker.status w <> Worker.offline.

#[global] Instance is_lapsed_dec now w : Decision (is_lapsed now w).
Proof. unfold is_lapsed. apply _. Defined.

Definition markOfflineWorkers (now : Z) (ws : list Worker.IWorker) : list Worker.IWorker :=
  (fun w => if decide (is_lapsed now w) then Worker.with_status Worker.offline w else w) <$> ws.

End WorkerMonitoring.

(** ** services/JobService.ts: the job pull *)

Module JobPull.

(** [{ priority: -1, 'metadata.createdAt': 1 }]: [job_rank_le a b] when
    [a] may come before [b]. *)
Definition job_rank_le (a b : Job.IJob) : Prop :=
  Job.priority b < Job.priority a
  \/ (Job.priority a = Job.priority b
      /\ Job.createdAt (Job.metadata a) <= Job.createdAt (Job.metadata b)).

#[global] Instance job_rank_le_dec : RelDecision job_rank_le.
Proof. intros a b. unfold job_rank_le. apply _. Defined.

(** The worker query of [getNextJobForWorker]: [identifier], [status] in
    [online] or [busy], and the capacity clause of [assignJobToWorker]. *)
Definition puller_query (workerId : string) (w : Worker.IWorker) : bool :=
  bool_decide (Worker.identifier w = workerId)
  && bool_decide (Worker.status w = Worker.online \/ Worker.status w = Worker.busy)
  && JobService.has_capacity w.

(** The job query: [queued], not assigned to another worker, priority
    within the worker's filter. *)
Definition pullable (workerId : string) (worker : Worker.IWorker) (j : Job.IJob) : bool :=
  bool_decide (Job.status j = Job.queued)
  && bool_decide (Job.assignedWorker j = None \/ Job.assignedWorker j = Some workerId)
  && bool_decide (Worker.min (Worker.priorityFilter (Worker.configuration worker))
                  <= Job.priority j)
  && bool_decide (Job.priority j
                  <= Worker.max (Worker.priorityFilter (Worker.configuration worker))).

(** The documents of the Job collection. *)
Definition documents (db : JobService.DB) : list Job.IJob :=
  (map_to_list (JobService.jobs db)).*2.

(** [getNextJobForWorker(workerId)]. *)
Definition getNextJobForWorker (workerId : string) (db : JobService.DB) : option Job.IJob :=
  match JobService.findOne (puller_query workerId) (JobService.workers db) with
  | None => None
  | Some worker =>
      head (merge_sort job_rank_le
              (filter (fun j => Is_true (pullable workerId worker j)) (documents db)))
  end.

(** What [GET /jobs/next] answers: 400 without a worker id, [data: null]
    when no job is available, the job otherwise, 500 from the [catch]. *)
Inductive Response :=
| BadRequest
| NoJobs
| Data (job : Job.IJob)
| ServerError.

(** [GET /jobs/next?workerId=]. The job in the answer is the document
    loaded by [getNextJobForWorker]; what [assignJobToWorker] returns is
    not looked at. *)
Definition GET (workerId : option string) (now : Z) (db : JobService.DB)
  : JobService.DB * Response :=
  match workerId with
  | None => (db, BadRequest)
  | Some wid =>
      if JS.truthy wid then
        match getNextJobForWorker wid db with
        | None => (db, NoJobs)
        | Some job =>
            match JobService.assignJobToWorker (Job._id job) (Some wid) now db with
            | (db1, JobService.Ok _) => (db1, Data job)
            | (db1, JobService.Throw _) => (db1, ServerError)
            end
        end
      else (db, BadRequest)
  end.

End JobPull.

(** ** app/api/workers/[id]/heartbeat/route.ts: the status query *)

Module HeartbeatStatus.

(** [formatUptime(lastSeen)]; [%] is the remainder of the truncating
    division. *)
Definition formatUptime (lastSeen now : Z) : string :=
  let diffMs := now - lastSeen in
  let diffMins := diffMs / 60000 in
  let diffHours := diffMins / 60 in
  let diffDays := diffHours / 24 in
  if decide (0 < diffDays) then
    JS.toString diffDays +:+ "d " +:+ JS.toString (Z.rem diffHours 24) +:+ "h "
    +:+ JS.toString (Z.rem diffMins 60) +:+ "m"
  else if decide (0 < diffHours) then
    JS.toString diffHours +:+ "h " +:+ JS.toString (Z.rem diffMins 60) +:+ "m"
  else JS.toString diffMins +:+ "m".

Record WorkerView := mkWorkerView {
  v_id : string;
  v_status : Heartbeat.Status;
  v_lastSeen : Z;
  isStale : bool;
  v_currentJobs : Z;
  v_metrics : Heartbeat.Metrics;
  v_performance : Heartbeat.Performance;
  v_capabilities : option Heartbeat.Capabilities;
  uptime : string;
  v_calculated : Heartbeat.WorkerStats
}.

Inductive Response :=
| NotFound
| Found (worker : WorkerView).

Definition with_status (st : Heartbeat.Status) (e : Heartbeat.Entry) : Heartbeat.Entry :=
  Heartbeat.mkEntry (Heartbeat.w_id e) st (Heartbeat.w_lastSeen e) (Heartbeat.w_currentJobs e)
                    (Heartbeat.w_metrics e) (Heartbeat.w_lastUpdated e)
                    (Heartbeat.w_performance e) (Heartbeat.w_totalJobsProcessed e)
                    (Heartbeat.w_totalJobsFailed e) (Heartbeat.w_capabilities e).

(** [GET /workers/{id}/heartbeat]. A worker not heard of for more than
    60 seconds is set [offline] on the registry entry itself (the entry is
    the object the map holds), and reported so. *)
Definition GET (workerId : string) (now : Z) (workerRegistry : gmap string Heartbeat.Entry)
  : gmap string Heartbeat.Entry * Response :=
  match workerRegistry !! workerId with
  | None => (workerRegistry, NotFound)
  | Some worker =>
      let stale := bool_decide (60000 < now - Heartbeat.w_lastSeen worker) in
      let worker1 :=
        if stale && bool_decide (Heartbeat.w_status worker <> Heartbeat.offline)
        then with_status Heartbeat.offline worker
        else worker in
      let registry1 :=
        if stale && bool_decide (Heartbeat.w_status worker <> Heartbeat.offline)
        then <[workerId := worker1]> workerRegistry
        else workerRegistry in
      (registry1,
       Found (mkWorkerView workerId (Heartbeat.w_status worker1) (Heartbeat.w_lastSeen worker1)
                           stale (Heartbeat.w_currentJobs worker1) (Heartbeat.w_metrics worker1)
                           (Heartbeat.w_performance worker1) (Heartbeat.w_capabilities worker1)
                           (formatUptime (Heartbeat.w_lastSeen worker1) now)
                           (Heartbeat.calculateWorkerStats worker1)))
  end.

End HeartbeatStatus.

(** ** app/api/jobs/route.ts and app/api/jobs/batch/route.ts *)

Module JobsRoute.

(** The fields of the request body the handler reads. *)
Record Body := mkBody {
  b_name : option string;
  b_url : option string;
  b_type : option Job.JobType;
  b_priority : option Z;
  b_createdBy : option string;
  b_tags : option (list string)
}.

Inductive Response :=
| Created (job : Job.IJob)
| BadRequest (error : string)
| ServerError (e : JobService.Error).

(** A missing or empty string is falsy. *)
Definition present (x : option string) : bool :=
  match x with
  | Some s => JS.truthy s
  | None => false
  end.

(** [POST /jobs]. *)
Definition POST `{JobService.Platform} (body : Body) (now : Z) (db : JobService.DB)
  : JobService.DB * Response :=
  if negb (present (b_name body)) || negb (present (b_url body)) then
    (db, BadRequest "Name and URL are required")
  else if negb (JobService.URL_parses (default ""%string (b_url body))) then
    (db, BadRequest "Invalid URL format")
  else
    let jobData :=
      JobService.mkCreateJobData
        (b_name body) (b_url body)
        (Some (default Job.single (b_type body)))
        (Some (JS.optnum_or (b_priority body) 5))
        (JS.optstr_or (b_createdBy body) "system")
        (Some (default [] (b_tags body))) in
    match JobService.createJob jobData now db with
    | (db1, JobService.Ok job) => (db1, Created job)
    | (db1, JobService.Throw e) => (db1, ServerError e)
    end.

Inductive BatchResponse :=
| BatchDone (result : JobService.BatchResult) (totalRequested : nat)
| BatchBadRequest (error : string).

(** [POST /jobs/batch]. *)
Definition POST_batch `{JobService.Platform} (batchData : JobService.BatchJobCreationData)
           (clock : nat -> Z) (db : JobService.DB) : JobService.DB * BatchResponse :=
  let base := JobService.baseJob batchData in
  if negb (present (JobService.name base)) || negb (present (JobService.url base)) then
    (db, BatchBadRequest "Base job name and URL are required")
  else if bool_decide (JobService.quantity batchData < 1)%nat
          || bool_decide (1000 < JobService.quantity batchData)%nat then
    (db, BatchBadRequest "Quantity must be between 1 and 1000")
  else
    let '(db1, result) := JobService.createBatchJobs batchData clock db in
    (db1, BatchDone result (JobService.quantity batchData)).

End JobsRoute.

(** ** Sequences of service calls *)

Module ServiceTrace.

(** The calls of the job service and of the job pull that write to the
    store. *)
Inductive Call :=
| CreateJob (jobData : JobService.CreateJobData)
| CreateBatchJobs (batchData : JobService.BatchJobCreationData) (clock : nat -> Z)
| QueueJob (jobId : string)
| AssignJobToWorker (jobId : string) (workerId : option string)
| CancelJob (jobId : string) (reason : option string)
| RetryJob (jobId : string)
| PullNextJob (workerId : option string).

(** The store after one call made at time [now]; what the call returns
    or throws is dropped. *)
Definition after `{JobService.Platform} (db : JobService.DB) (c : Call * Z) : JobService.DB :=
  let now := c.2 in
  match c.1 with
  | CreateJob jobData => (JobService.createJob jobData now db).1
  | CreateBatchJobs batchData clock => (JobService.createBatchJobs batchData clock db).1
  | QueueJob jobId => (JobService.queueJob jobId now db).1
  | AssignJobToWorker jobId workerId => (JobService.assignJobToWorker jobId workerId now db).1
  | CancelJob jobId reason => (JobService.cancelJob jobId reason now db).1
  | RetryJob jobId => (JobService.retryJob jobId now db).1
  | PullNextJob workerId => (JobPull.GET workerId now db).1
  end.

Definition run `{JobService.Platform} (db : JobService.DB) (cs : list (Call * Z))
  : JobService.DB :=
  foldl after db cs.

(** [j'] is [j] later on: the same identity and definition, the same
    number of attempts, and a log that has only grown at its end. *)
Definition grown (j j' : Job.IJob) : Prop :=
  Job._id j' = Job._id j
  /\ Job.name j' = Job.name j
  /\ Job.url j' = Job.url j
  /\ Job.type j' = Job.type j
  /\ Job.priority j' = Job.priority j
  /\ Job.createdBy (Job.metadata j') = Job.createdBy (Job.metadata j)
  /\ Job.createdAt (Job.metadata j') = Job.createdAt (Job.metadata j)
  /\ Job.attempts (Job.execution j') = Job.attempts (Job.execution j)
  /\ Job.logs (Job.execution j) `prefix_of` Job.logs (Job.execution j').

(** A store keeps the jobs of an earlier one when each is still there,
    grown. *)
Definition keeps (db db' : JobService.DB) : Prop :=
  forall id j,
    JobService.jobs db !! id = Some j ->
    exists j', JobService.jobs db' !! id = Some j' /\ grown j j'.

End ServiceTrace.

(** ** More JavaScript helpers *)

Module JSText.

(** [s.includes(pat)]. *)
Fixpoint includes (pat s : string) : bool :=
  JS.startsWith pat s
  || match s with
     | EmptyString => false
     | String _ s' => includes pat s'
     end.

End JSText.

(** ** Bookkeeping over a worker's events *)

Module WorkerTally.

(** The worker after a sequence of events. *)
Definition run (w : Worker.IWorker) (es : list Worker.Event) : Worker.IWorker :=
  foldl Worker.step w es.

(** How many jobs a sequence of events completes, how many of them with
    success, and the sum of their durations. *)
Fixpoint completions (es : list Worker.Event) : Z :=
  match es with
  | [] => 0
  | Worker.Assign :: es' => completions es'
  | Worker.Complete _ _ :: es' => 1 + completions es'
  end.

Fixpoint successes (es : list Worker.Event) : Z :=
  match es with
  | [] => 0
  | Worker.Complete true _ :: es' => 1 + successes es'
  | _ :: es' => successes es'
  end.

Fixpoint durations (es : list Worker.Event) : Qc :=
  match es with
  | [] => 0%Qc
  | Worker.Assign :: es' => durations es'
  | Worker.Complete _ d :: es' => (d + durations es')%Qc
  end.

(** The status agrees with the load: [busy] at or over capacity, [online]
    below it, and the counter is not negative. *)
Definition coherent (w : Worker.IWorker) : Prop :=
  0 <= Worker.currentJobs (Worker.resources w)
  /\ ((Worker.status w = Worker.busy
       /\ Worker.maxConcurrentJobs (Worker.capabilities w)
          <= Worker.currentJobs (Worker.resources w))
      \/ (Worker.status w = Worker.online
          /\ Worker.currentJobs (Worker.resources w)
             < Worker.maxConcurrentJobs (Worker.capabilities w))).

End WorkerTally.

(** ** Sample data *)

Module Sample.

(** A platform whose identifiers are numbered and whose URL parser wants
    a scheme. *)
#[local] Instance platform : JobService.Platform := {|
  JobService.nanoid := fun k => ("job-" +:+ pretty k)%string;
  JobService.URL_parses := fun s => JS.startsWith "https://" s || JS.startsWith "http://" s
|}.

(** A job that ran on worker [w1] from time 100 to time 400. *)
Definition completed_job : Job.IJob :=
  Job.mkJob "j1" "Test" "https://example.com" Job.single Job.completed 5
            (Some "w1"%string) (Some (Job.mkWorkerInfo "w1" "Worker 1" "10.0.0.1" 90))
            (Job.mkExecution (Some 100) (Some 400) (Some 300) 1 (Some 100) [] ∅)
            (Job.mkMetadata "system" 50 400 []).

(** A worker with the given identifier, capacity, load and priority
    filter, online. *)
Definition worker (id : string) (capacity load lo hi : Z) : Worker.IWorker :=
  Worker.mkWorker id id id Worker.online (Worker.mkConnection "10.0.0.1" 0)
                  (Worker.mkCapabilities capacity)
                  (Worker.mkResources load 0 0%Qc 0%Qc)
                  (Worker.mkConfiguration (Worker.mkPriorityFilter lo hi)).

(** The worker of the success-rate example: 9 jobs processed, 8 of them
    successes. *)
Definition worker_8_of_9 : Worker.IWorker :=
  Worker.mkWorker "w" "w" "w" Worker.online (Worker.mkConnection "127.0.0.1" 0)
                  (Worker.mkCapabilities 3)
                  (Worker.mkResources 1 9 (Qc_of_Z 8 / Qc_of_Z 9)%Qc 0%Qc)
                  (Worker.mkConfiguration (Worker.mkPriorityFilter 1 10)).

(** A store holding [completed_job] and the worker it ran on, which has
    since taken another job. *)
Definition store_after_completion : JobService.DB :=
  JobService.mkDB {[ "j1"%string := completed_job ]} [worker "w1" 1 1 1 10] 1.

(** A queued job of priority 3. *)
Definition job_priority_3 : Job.IJob :=
  Job.mkJob "j3" "Low" "https://example.com/low" Job.single Job.queued 3 None None
            (Job.mkExecution None None None 0 None [] ∅)
            (Job.mkMetadata "system" 10 20 []).

(** A pool of two: [w1], idle, takes priorities 5 to 10; [w2], loaded with
    one job out of three, takes priorities 1 to 10. *)
Definition store_two_workers : JobService.DB :=
  JobService.mkDB {[ "j3"%string := job_priority_3 ]}
                  [worker "w1" 1 0 5 10; worker "w2" 3 1 1 10] 1.

(** Job data as the form sends it, with a priority to choose. *)
Definition test_job (p : option Z) : JobService.CreateJobData :=
  JobService.mkCreateJobData (Some "Test"%string) (Some "https://example.com"%string)
                             None p "system" None.

Definition empty_store : JobService.DB := JobService.mkDB ∅ [] 0.

(** A batch of three off a base job declared [single], URLs from
    [pattern_from_5] below. *)
Definition batch_of_three (p : JobService.UrlPattern) : JobService.BatchJobCreationData :=
  JobService.mkBatch
    (JobService.mkCreateJobData (Some "Page"%string) (Some "https://x.com"%string)
                                (Some Job.single) (Some 4) "system" None)
    3 (Some p) None None.

(** The pattern of the batch example: sequential from 5. *)
Definition pattern_from_5 : JobService.UrlPattern :=
  JobService.mkUrlPattern JobService.url_sequential None (Some 5)
                          (Some "https://x.com/p-{number}"%string).

(** A heartbeat of a lightly loaded worker. *)
Definition heartbeat : Heartbeat.HeartbeatData :=
  Heartbeat.mkHeartbeatData Heartbeat.online 1
    (Heartbeat.mkMetrics (Qc_of_Z 1024) (Qc_of_Z 25) (Qc_of_Z 40) (Qc_of_Z 10) 12 1 (Qc_of_Z 300))
    (Heartbeat.mkPerformance (Qc_of_Z 92) (Qc_of_Z 4500))
    None.

(** A registry holding one worker that has reported its capabilities. *)
Definition registry_with_w1 : gmap string Heartbeat.Entry :=
  {[ "w1"%string :=
       Heartbeat.mkEntry "w1" Heartbeat.busy 500 3
         (Heartbeat.metrics heartbeat) 500 (Heartbeat.performance heartbeat) 12 1
         (Some (Heartbeat.mkCapabilities 3 ["chrome"%string] 4096 4)) ]}.

(** An entry of a worker in good shape: moderate load, success rate 98. *)
Definition healthy_entry (st : Heartbeat.Status) : Heartbeat.Entry :=
  Heartbeat.mkEntry "w1" st 500 1
    (Heartbeat.mkMetrics (Qc_of_Z 2048) (Qc_of_Z 35) (Qc_of_Z 40) (Qc_of_Z 10) 50 1 (Qc_of_Z 300))
    500 (Heartbeat.mkPerformance (Qc_of_Z 98) (Qc_of_Z 4500)) 50 1 None.

End Sample.

(* ================================================================== *)
(** * Properties *)

Module WorkerFacts.
Import Worker.

Lemma currentJobs_assignJob w :
  currentJobs (resources (assignJob w)) = currentJobs (resources w) + 1.
Proof. unfold assignJob. case_decide; reflexivity. Qed.

Lemma currentJobs_completeJob s d w :
  currentJobs (resources (completeJob s d w)) = Z.max 0 (currentJobs (resources w) - 1).
Proof. unfold completeJob. case_decide; reflexivity. Qed.

Lemma maxConcurrentJobs_step w e :
  maxConcurrentJobs (capabilities (step w e)) = maxConcurrentJobs (capabilities w).
Proof.
  destruct e; simpl; [unfold assignJob | unfold completeJob]; case_decide; reflexivity.
Qed.

Lemma nonnegative_step w e : nonnegative_jobs w -> nonnegative_jobs (step w e).
Proof.
  unfold nonnegative_jobs. destruct e; simpl.
  - rewrite currentJobs_assignJob. lia.
  - rewrite currentJobs_completeJob. lia.
Qed.

Lemma within_capacity_step w e :
  nonnegative_jobs w -> within_capacity w -> admitted w e = true ->
  within_capacity (step w e).
Proof.
  unfold nonnegative_jobs, within_capacity. intros Hnn Hcap Hadm.
  rewrite maxConcurrentJobs_step. destruct e; simpl in *.
  - apply bool_decide_eq_true in Hadm. rewrite currentJobs_assignJob. lia.
  - rewrite currentJobs_completeJob. lia.
Qed.

Lemma history_nonnegative es : forall w,
  nonnegative_jobs w -> Forall nonnegative_jobs (history w es).
Proof.
  induction es as [|e es IH]; intros w Hw; simpl.
  - repeat constructor. exact Hw.
  - constructor; [exact Hw|]. apply IH, nonnegative_step, Hw.
Qed.

Lemma history_within_capacity es : forall w,
  nonnegative_jobs w -> within_capacity w -> all_admitted w es = true ->
  Forall within_capacity (history w es).
Proof.
  induction es as [|e es IH]; intros w Hnn Hcap Hadm; simpl in *.
  - repeat constructor. exact Hcap.
  - apply andb_true_iff in Hadm as [Hhd Htl].
    constructor; [exact Hcap|].
    apply IH; [apply nonnegative_step, Hnn | apply within_capacity_step; assumption | exact Htl].
Qed.

(** C1 (as amended). From [currentJobs = 0], under every sequence of
    [assignJob] and [completeJob] the counter is never negative; it never
    exceeds [maxConcurrentJobs] when the capacity is not negative and every
    [assignJob] is applied to a worker with a free slot, which [assignJob]
    itself does not check. *)
Theorem capacity_invariant (w : IWorker) (es : list Event) :
  currentJobs (resources w) = 0 ->
  Forall nonnegative_jobs (history w es)
  /\ (0 <= maxConcurrentJobs (capabilities w) ->
      all_admitted w es = true ->
      Forall within_capacity (history w es)).
Proof.
  intros H0. split.
  - apply history_nonnegative. unfold nonnegative_jobs. lia.
  - intros Hcap Hadm. apply history_within_capacity; try assumption.
    + unfold nonnegative_jobs. lia.
    + unfold within_capacity. lia.
Qed.

Lemma capacity_invariant_witness :
  Forall nonnegative_jobs
         (history (registered "w1" 2) [Assign; Complete true 0%Qc; Complete false 0%Qc; Assign; Assign])
  /\ Forall within_capacity
            (history (registered "w1" 2) [Assign; Complete true 0%Qc; Complete false 0%Qc; Assign; Assign]).
Proof.
  destruct (capacity_invariant (registered "w1" 2)
              [Assign; Complete true 0%Qc; Complete false 0%Qc; Assign; Assign] eq_refl)
    as [Hnn Hcap].
  split; [exact Hnn|]. apply Hcap; [simpl; lia | reflexivity].
Defined.

(** C1 (as stated) fails: two [assignJob] on a worker registered with
    capacity 1 leave [currentJobs = 2]. *)
Lemma capacity_exceeded_by_assignJob :
  ~ Forall within_capacity (history (registered "w1" 1) [Assign; Assign]).
Proof.
  intros H. apply Forall_cons in H as [_ H]. apply Forall_cons in H as [_ H].
  apply Forall_cons in H as [H _]. revert H. unfold within_capacity.
  vm_compute. intros H. apply H. reflexivity.
Qed.

Lemma Qc_of_Z_nonzero n : n <> 0 -> Qc_of_Z n <> 0%Qc.
Proof. intros Hn Heq. apply Hn. apply Z2Qc_inj. rewrite Heq. symmetry. apply Z2Qc_inj_0. Qed.

Lemma successRate_completeJob s d w :
  successRate (resources (completeJob s d w)) =
  ((successRate (resources w) * Qc_of_Z (totalJobsProcessed (resources w))
    + (if s then 1 else 0)) / Qc_of_Z (totalJobsProcessed (resources w) + 1))%Qc.
Proof.
  unfold completeJob. cbv zeta.
  replace (totalJobsProcessed (resources w) + 1 - 1) with (totalJobsProcessed (resources w)) by lia.
  case_decide; reflexivity.
Qed.

(** C6. A worker whose [successRate] is [k/n] after [n] jobs, [k] of them
    successes, has [successRate] exactly [(k + s)/(n + 1)] after
    [completeJob] with outcome [s]; with [n = 0] the old rate does not
    matter. *)
Theorem successRate_rolling_update (w : IWorker) (k n : Z) (s : bool) (d : Qc) :
  totalJobsProcessed (resources w) = n ->
  0 <= k <= n ->
  (0 < n -> successRate (resources w) = (Qc_of_Z k / Qc_of_Z n)%Qc) ->
  successRate (resources (completeJob s d w))
  = (Qc_of_Z (k + (if s then 1 else 0)) / Qc_of_Z (n + 1))%Qc.
Proof.
  intros Hn Hk Hrate. rewrite successRate_completeJob, Hn.
  assert (Hn1 : Qc_of_Z (n + 1) <> 0%Qc) by (apply Qc_of_Z_nonzero; lia).
  assert (Hs : (if s then 1 else 0)%Qc = Qc_of_Z (if s then 1 else 0)).
  { destruct s; [symmetry; apply Z2Qc_inj_1 | symmetry; apply Z2Qc_inj_0]. }
  rewrite Hs, (Z2Qc_inj_add k). clear Hs.
  assert (Hnum : (successRate (resources w) * Qc_of_Z n)%Qc = Qc_of_Z k).
  { destruct (decide (n = 0)) as [->|Hnz].
    - assert (k = 0) as -> by lia. rewrite Z2Qc_inj_0. ring.
    - rewrite Hrate by lia.
      assert (Qc_of_Z n <> 0%Qc) by (apply Qc_of_Z_nonzero; lia).
      field. assumption. }
  rewrite Hnum. reflexivity.
Qed.

Lemma successRate_rolling_update_witness :
  successRate (resources (completeJob true 0%Qc Sample.worker_8_of_9))
  = (Qc_of_Z (8 + 1) / Qc_of_Z (9 + 1))%Qc.
Proof.
  apply (successRate_rolling_update Sample.worker_8_of_9 8 9 true 0%Qc).
  - reflexivity.
  - lia.
  - intros _. reflexivity.
Defined.

(** The example of C6 in figures: from 8/9 a tenth, successful job
    gives 9/10. *)
Lemma successRate_8_of_9_then_success :
  successRate (resources (completeJob true 0%Qc Sample.worker_8_of_9)) = Q2Qc (9 # 10).
Proof. apply Qc_is_canon. vm_compute. reflexivity. Qed.

End WorkerFacts.

Module JobFacts.
Import Job.

Lemma status_updateStatus st data now j :
  status (updateStatus st data now j) = st.
Proof. reflexivity. Qed.

Lemma attempts_updateStatus st data now j :
  attempts (execution (updateStatus st data now j))
  = if decide (st = running) then attempts (execution j) + 1 else attempts (execution j).
Proof.
  unfold updateStatus. cbv zeta.
  destruct data; repeat case_decide; reflexivity.
Qed.

(** C2 (as amended). [updateStatus] applies every status change it is
    asked for, whether or not the specification lists the pair as a
    transition: the job comes back with the requested status, the attempt
    counter goes up by one exactly when that status is [running], and no
    outcome of the operation is a rejection. *)
Theorem updateStatus_applies_any_transition
        (j : IJob) (st : Status) (data : option (gmap string string)) (now : Z) :
  status (updateStatus st data now j) = st
  /\ attempts (execution (updateStatus st data now j))
     = (if decide (st = running) then attempts (execution j) + 1 else attempts (execution j))
  /\ _id (updateStatus st data now j) = _id j.
Proof.
  split; [apply status_updateStatus|]. split; [apply attempts_updateStatus|]. reflexivity.
Qed.

(** C2 (as stated) fails: completed to running is not a listed
    transition, yet the update goes through and changes the job. *)
Lemma completed_to_running_is_applied :
  listed_transition (status Sample.completed_job) running = false
  /\ status (updateStatus running None 500 Sample.completed_job) = running
  /\ attempts (execution (updateStatus running None 500 Sample.completed_job)) = 2
  /\ updateStatus running None 500 Sample.completed_job <> Sample.completed_job.
Proof.
  split; [reflexivity|]. split; [reflexivity|]. split; [reflexivity|].
  intros Heq. apply (f_equal status) in Heq. discriminate Heq.
Qed.

End JobFacts.

Module CancelFacts.
Import JobService.

Lemma cancelJob_missing id reason now db :
  jobs db !! id = None -> cancelJob id reason now db = (db, false).
Proof. intros Hnone. unfold cancelJob. rewrite Hnone. reflexivity. Qed.

Lemma cancelJob_existing id reason now db job :
  jobs db !! id = Some job ->
  (cancelJob id reason now db).2 = true
  /\ Job.status <$> jobs (cancelJob id reason now db).1 !! id = Some Job.cancelled.
Proof.
  intros Hjob. unfold cancelJob. rewrite Hjob. cbn [fst snd jobs].
  split; [reflexivity|]. rewrite lookup_insert_eq. reflexivity.
Qed.

Lemma DELETE_unfold id reason now db :
  JobRoute.DELETE id reason now db
  = let r := cancelJob id (Some (JS.optstr_or reason "Manual cancellation")) now db in
    (r.1, if r.2 then JobRoute.mkResponse 200 true "Job cancelled successfully"
          else JobRoute.mkResponse 404 false "Job not found or cannot be cancelled").
Proof.
  unfold JobRoute.DELETE.
  destruct (cancelJob id (Some (JS.optstr_or reason "Manual cancellation")) now db) as [db1 [|]];
    reflexivity.
Qed.

Lemma DELETE_existing id reason now db job :
  jobs db !! id = Some job ->
  JobRoute.code (JobRoute.DELETE id reason now db).2 = 200
  /\ Job.status <$> jobs (JobRoute.DELETE id reason now db).1 !! id = Some Job.cancelled.
Proof.
  intros Hjob.
  destruct (cancelJob_existing id (Some (JS.optstr_or reason "Manual cancellation"))
                               now db job Hjob) as [Hok Hst].
  rewrite DELETE_unfold. cbv zeta. cbn [fst snd]. rewrite Hok. split; [reflexivity|exact Hst].
Qed.

(** C8 (as amended). Cancelling succeeds exactly when the job exists,
    whatever its status: [cancelJob] returns [true] and the stored job is
    [cancelled], terminal states included, and [DELETE] answers 200; when
    the job does not exist [cancelJob] returns [false], [DELETE] answers 404
    and the store is as it was. *)
Theorem cancel_succeeds_iff_job_exists
        (id : string) (reason : option string) (now : Z) (db : DB) :
  match jobs db !! id with
  | Some job =>
      (cancelJob id reason now db).2 = true
      /\ Job.status <$> jobs (cancelJob id reason now db).1 !! id = Some Job.cancelled
      /\ JobRoute.code (JobRoute.DELETE id reason now db).2 = 200
      /\ Job.status <$> jobs (JobRoute.DELETE id reason now db).1 !! id = Some Job.cancelled
  | None =>
      cancelJob id reason now db = (db, false)
      /\ JobRoute.code (JobRoute.DELETE id reason now db).2 = 404
      /\ (JobRoute.DELETE id reason now db).1 = db
  end.
Proof.
  destruct (jobs db !! id) as [job|] eqn:Hjob.
  - destruct (cancelJob_existing id reason now db job Hjob) as [Hok Hst].
    destruct (DELETE_existing id reason now db job Hjob) as [Hcode Hst'].
    repeat split; assumption.
  - rewrite DELETE_unfold. cbv zeta.
    rewrite !(cancelJob_missing _ _ _ _ Hjob). repeat split; reflexivity.
Qed.

(** C8 (as stated) fails: a completed job is cancelled on request; the
    answer is 200, the stored status changes to [cancelled]. *)
Lemma completed_job_is_cancelled :
  Job.status <$> jobs Sample.store_after_completion !! "j1" = Some Job.completed
  /\ JobRoute.code (JobRoute.DELETE "j1" None 500 Sample.store_after_completion).2 = 200
  /\ Job.status <$> jobs (JobRoute.DELETE "j1" None 500 Sample.store_after_completion).1 !! "j1"
     = Some Job.cancelled
  /\ (JobRoute.DELETE "j1" None 500 Sample.store_after_completion).1
     <> Sample.store_after_completion.
Proof.
  split; [reflexivity|].
  destruct (DELETE_existing "j1" None 500 Sample.store_after_completion Sample.completed_job)
    as [Hcode Hst]; [reflexivity|].
  split; [exact Hcode|]. split; [exact Hst|].
  intros Heq. rewrite Heq in Hst. discriminate Hst.
Qed.

(** In the same store the worker the job had run on holds one other
    job; the cancellation runs [completeJob] on it once more and its
    counter drops to 0. *)
Lemma cancel_of_completed_job_releases_worker :
  Worker.currentJobs ∘ Worker.resources <$> workers Sample.store_after_completion = [1]
  /\ Worker.currentJobs ∘ Worker.resources
       <$> workers (JobRoute.DELETE "j1" None 500 Sample.store_after_completion).1 = [0].
Proof. split; vm_compute; reflexivity. Qed.

End CancelFacts.

Module CreateFacts.
Import JobService.

Section WithPlatform.
Context `{Platform}.


Lemma priority_valid_iff p : priority_valid p = true <-> 1 <= p <= 10.
Proof.
  unfold priority_valid. rewrite andb_true_iff, !bool_decide_eq_true. tauto.
Qed.





End WithPlatform.



(** A priority of 0 (like a missing one) is replaced by the default 5
    before the validators run. *)
Lemma priority_0_is_defaulted :
  Job.priority <$> jobs (createJob (H := Sample.platform) (Sample.test_job (Some 0)) 0 Sample.empty_store).1
                   !! "job-0"
  = Some 5.
Proof. vm_compute. reflexivity. Qed.

End CreateFacts.

Module BatchFacts.
Import JobService.

Section WithPlatform.
Context `{Platform}.

(** [createJob] never touches a job that is already stored. *)
Lemma createJob_preserves jobData now db id j :
  jobs db !! id = Some j ->
  jobs (createJob jobData now db).1 !! id = Some j.
Proof.
  intros Hj. unfold createJob. cbv zeta.
  destruct (validate _ _ _ _) as [|x paths]; [|exact Hj].
  cbn [jobs]. destruct (jobs db !! nanoid (issued db)) as [old|] eqn:Hfresh; [exact Hj|].
  assert (Hne : nanoid (issued db) <> id) by congruence.
  set (job := Job.mkJob _ _ _ _ _ _ _ _ _ _).
  case_decide as Hty.
  - unfold queueJob. cbn [jobs with_jobs]. rewrite lookup_insert_eq.
    cbn [fst jobs with_jobs].
    rewrite lookup_alter_ne, !lookup_insert_ne by exact Hne. exact Hj.
  - cbn [fst jobs with_jobs].
    rewrite lookup_alter_ne, lookup_insert_ne by exact Hne. exact Hj.
Qed.


Lemma batchJobData_type batchData urls_ names i now :
  type (batchJobData batchData urls_ names i now) = Some Job.scheduled.
Proof. reflexivity. Qed.








End WithPlatform.


End BatchFacts.

Module AssignFacts.
Import JobService.

(** *** The sort order *)

#[local] Instance rank_le_total : Total rank_le.
Proof.
  intros a b. unfold rank_le. cbv zeta.
  destruct (Z.lt_trichotomy (Worker.currentJobs (Worker.resources a))
                            (Worker.currentJobs (Worker.resources b))) as [Hlt|[Heq|Hgt]].
  - left. left. exact Hlt.
  - destruct (Qc_dec (Worker.successRate (Worker.resources a))
                     (Worker.successRate (Worker.resources b))) as [[Hs|Hs]|Hs].
    + right. right. split; [symmetry; exact Heq|]. left. exact Hs.
    + left. right. split; [exact Heq|]. left. exact Hs.
    + destruct (Qclt_le_dec (Worker.averageJobDuration (Worker.resources b))
                            (Worker.averageJobDuration (Worker.resources a))) as [Hd|Hd].
      * right. right. split; [symmetry; exact Heq|]. right.
        split; [symmetry; exact Hs|]. apply Qclt_le_weak, Hd.
      * left. right. split; [exact Heq|]. right. split; [exact Hs|exact Hd].
  - right. left. exact Hgt.
Qed.

#[local] Instance rank_le_trans : Transitive rank_le.
Proof.
  intros a b c. unfold rank_le. cbv zeta.
  intros [Hab|[Hab Hab']] [Hbc|[Hbc Hbc']].
  - left. lia.
  - left. lia.
  - left. lia.
  - right. split; [lia|].
    destruct Hab' as [Hs1|[Hs1 Hd1]], Hbc' as [Hs2|[Hs2 Hd2]].
    + left. eapply Qclt_trans; eassumption.
    + left. rewrite <- Hs2. exact Hs1.
    + left. rewrite Hs1. exact Hs2.
    + right. split; [congruence|]. eapply Qcle_trans; eassumption.
Qed.

Lemma rank_le_refl a : rank_le a a.
Proof.
  unfold rank_le. cbv zeta. right. split; [reflexivity|]. right.
  split; [reflexivity|]. apply Qcle_refl.
Qed.

(** The head of a sorted list comes before every element of it. *)
Lemma head_merge_sort_least (l : list Worker.IWorker) w :
  head (merge_sort rank_le l) = Some w ->
  w ∈ l /\ forall c, c ∈ l -> rank_le w c.
Proof.
  intros Hhead.
  pose proof (StronglySorted_merge_sort rank_le l) as Hsorted.
  pose proof (merge_sort_Permutation rank_le l) as Hperm.
  apply head_Some in Hhead as [rest Hrest]. rewrite Hrest in Hsorted, Hperm.
  split.
  - rewrite <- Hperm. left.
  - intros c Hc. rewrite <- Hperm in Hc.
    apply elem_of_cons in Hc as [->|Hc]; [apply rank_le_refl|].
    apply StronglySorted_inv in Hsorted as [_ Hall].
    rewrite Forall_forall in Hall. apply Hall. exact Hc.
Qed.

Lemma head_merge_sort_none (l : list Worker.IWorker) :
  head (merge_sort rank_le l) = None -> l = [].
Proof.
  intros Hhead. apply head_None in Hhead.
  pose proof (merge_sort_Permutation rank_le l) as Hperm. rewrite Hhead in Hperm.
  symmetry. apply Permutation_nil_l. exact Hperm.
Qed.

(** No worker passes the capacity clause, and so none passes a query
    that has it. *)
Lemma has_capacity_false w : has_capacity w = false.
Proof. reflexivity. Qed.

Lemma available_query_false p w : available_query p w = false.
Proof.
  unfold available_query. rewrite has_capacity_false, andb_false_r. reflexivity.
Qed.

Lemma pinned_query_false wid w : pinned_query wid w = false.
Proof. unfold pinned_query. rewrite has_capacity_false. apply andb_false_r. Qed.

Lemma findOne_Some q ws w :
  findOne q ws = Some w -> w ∈ ws /\ q w = true.
Proof.
  unfold findOne. intros Hhead. apply head_Some_elem_of in Hhead.
  apply list_elem_of_filter in Hhead as [Hq Hin]. split; [exact Hin|].
  apply Is_true_true. exact Hq.
Qed.

Lemma findOne_None q ws :
  findOne q ws = None -> forall c, c ∈ ws -> q c = false.
Proof.
  unfold findOne. intros Hhead c Hc. apply head_None in Hhead.
  destruct (q c) eqn:Hq; [|reflexivity].
  exfalso. eapply filter_nil_not_elem_of; [exact Hhead| |exact Hc].
  cbn beta. rewrite Hq. exact I.
Qed.

Lemma findSorted_head_Some q ws w :
  head (findSorted q ws) = Some w ->
  w ∈ ws /\ q w = true /\ forall c, c ∈ ws -> q c = true -> rank_le w c.
Proof.
  unfold findSorted. intros Hhead.
  apply head_merge_sort_least in Hhead as [Hin Hleast].
  apply list_elem_of_filter in Hin as [Hq Hin].
  split; [exact Hin|]. split; [apply Is_true_true; exact Hq|].
  intros c Hc Hqc. apply Hleast. apply list_elem_of_filter. split; [|exact Hc].
  rewrite Hqc. exact I.
Qed.

Lemma findSorted_head_None q ws :
  head (findSorted q ws) = None -> forall c, c ∈ ws -> q c = false.
Proof.
  unfold findSorted. intros Hhead c Hc. apply head_merge_sort_none in Hhead.
  destruct (q c) eqn:Hq; [|reflexivity].
  exfalso. eapply filter_nil_not_elem_of; [exact Hhead| |exact Hc].
  cbn beta. rewrite Hq. exact I.
Qed.

(** What [assignJobToWorker] answers, in terms of the worker it picked. *)
Lemma assignJobToWorker_result jobId workerId now db job :
  jobs db !! jobId = Some job ->
  (assignJobToWorker jobId workerId now db).2
  = Ok (Worker.assignJob <$> selectWorker job workerId (workers db)).
Proof.
  intros Hjob. unfold assignJobToWorker. rewrite Hjob.
  destruct (selectWorker job workerId (workers db)); reflexivity.
Qed.

Lemma identifier_assignJob w :
  Worker.identifier (Worker.assignJob w) = Worker.identifier w.
Proof. unfold Worker.assignJob. case_decide; reflexivity. Qed.

Lemma findOne_all_false q ws :
  (forall w, q w = false) -> findOne q ws = None.
Proof.
  intros Hq. unfold findOne.
  destruct (filter (fun w => Is_true (q w)) ws) as [|w rest] eqn:Hf; [reflexivity|].
  assert (Hin : w ∈ filter (fun w => Is_true (q w)) ws) by (rewrite Hf; left).
  apply list_elem_of_filter in Hin as [Hw _]. rewrite Hq in Hw. destruct Hw.
Qed.

Lemma findSorted_all_false q ws :
  (forall w, q w = false) -> findSorted q ws = [].
Proof.
  intros Hq. unfold findSorted.
  destruct (filter (fun w => Is_true (q w)) ws) as [|w rest] eqn:Hf; [reflexivity|].
  assert (Hin : w ∈ filter (fun w => Is_true (q w)) ws) by (rewrite Hf; left).
  apply list_elem_of_filter in Hin as [Hw _]. rewrite Hq in Hw. destruct Hw.
Qed.

(** Both branches of [assignJobToWorker] come back without a worker. *)
Lemma selectWorker_None job workerId ws : selectWorker job workerId ws = None.
Proof.
  unfold selectWorker.
  destruct workerId as [wid|]; [destruct (JS.truthy wid)|].
  - apply findOne_all_false, pinned_query_false.
  - rewrite findSorted_all_false by apply available_query_false. reflexivity.
  - rewrite findSorted_all_false by apply available_query_false. reflexivity.
Qed.

(** So the block under [if (worker)] is never entered: nothing is
    written and no worker is returned, for a job that exists or not. *)
Lemma assignJobToWorker_no_worker jobId workerId now db :
  (assignJobToWorker jobId workerId now db).1 = db
  /\ forall assigned, (assignJobToWorker jobId workerId now db).2 <> Ok (Some assigned).
Proof.
  unfold assignJobToWorker.
  destruct (jobs db !! jobId) as [job|]; [rewrite selectWorker_None|];
    (split; [reflexivity|intros assigned; discriminate]).
Qed.

(** C3. Automatic assignment (no worker id) returns no worker and writes
    nothing, whatever the job and the pool: the capacity clause of its
    query compares [resources.currentJobs] with the text
    ['$capabilities.maxConcurrentJobs'], which no worker passes. In the
    sample pool worker [w2] is online, runs 1 job of 3 and filters on
    priorities 1 to 10, so it is the one candidate the filter is meant
    to leave for the job of priority 3; it is not returned. *)
Theorem automatic_assignment_returns_no_worker :
  (forall (jobId : string) (now : Z) (db : DB),
      (assignJobToWorker jobId None now db).1 = db
      /\ forall assigned, (assignJobToWorker jobId None now db).2 <> Ok (Some assigned))
  /\ (jobs Sample.store_two_workers !! "j3"%string = Some Sample.job_priority_3
      /\ Job.priority Sample.job_priority_3 = 3
      /\ Sample.worker "w2" 3 1 1 10 ∈ workers Sample.store_two_workers
      /\ Worker.status (Sample.worker "w2" 3 1 1 10) = Worker.online
      /\ Worker.currentJobs (Worker.resources (Sample.worker "w2" 3 1 1 10))
         < Worker.maxConcurrentJobs (Worker.capabilities (Sample.worker "w2" 3 1 1 10))
      /\ Worker.min (Worker.priorityFilter (Worker.configuration (Sample.worker "w2" 3 1 1 10)))
         <= Job.priority Sample.job_priority_3
         <= Worker.max (Worker.priorityFilter (Worker.configuration (Sample.worker "w2" 3 1 1 10)))
      /\ (assignJobToWorker "j3" None 30 Sample.store_two_workers).1 = Sample.store_two_workers
      /\ (assignJobToWorker "j3" None 30 Sample.store_two_workers).2
         <> Ok (Some (Worker.assignJob (Sample.worker "w2" 3 1 1 10)))).
Proof.
  split.
  - intros jobId now db. apply assignJobToWorker_no_worker.
  - split; [reflexivity|]. split; [reflexivity|].
    split; [unfold Sample.store_two_workers; cbn [workers]; apply elem_of_cons; right; apply elem_of_cons; left; reflexivity|].
    split; [reflexivity|]. split; [cbn; lia|]. split; [cbn; lia|].
    split; [apply assignJobToWorker_no_worker|].
    apply assignJobToWorker_no_worker.
Qed.


End AssignFacts.

Module BatchUrlFacts.
Import JobService.


Lemma length_generateUrls quantity urlPattern baseUrl :
  length (generateUrls quantity urlPattern baseUrl) = quantity.
Proof.
  unfold generateUrls. cbv zeta.
  destruct urlPattern as [[ty us st pat]|]; cbn [url_type].
  - destruct ty;
      [rewrite bool_decide_eq_true_2 by reflexivity
      |rewrite bool_decide_eq_false_2 by discriminate
      |rewrite bool_decide_eq_false_2 by discriminate];
      try destruct us; rewrite length_fmap; apply length_seq.
  - rewrite length_fmap. apply length_seq.
Qed.



(** The batch example: start number 5, quantity 3. *)
Lemma generateUrls_sequential_from_5 :
  generateUrls 3 (Some Sample.pattern_from_5) (Some "https://x.com"%string)
  = [Some "https://x.com/p-5"; Some "https://x.com/p-6"; Some "https://x.com/p-7"]%string.
Proof. vm_compute. reflexivity. Qed.


End BatchUrlFacts.

Module HeartbeatFacts.
Import Heartbeat.

(** A heartbeat whose body parses is answered with status 200 and leaves
    an entry under the identifier it came with. *)
Lemma POST_accepts workerId hb now registry :
  exists body e,
    (POST workerId (Some hb) now registry).2 = Json200 body
    /\ success body = true
    /\ globalWorkerCount (stats body) = size (<[workerId := e]> registry)
    /\ (POST workerId (Some hb) now registry).1 !! workerId = Some e
    /\ w_id e = workerId
    /\ w_status e = status hb
    /\ w_currentJobs e = currentJobs hb
    /\ w_lastSeen e = now
    /\ w_metrics e = metrics hb
    /\ w_performance e = performance hb.
Proof.
  unfold POST. cbv zeta. cbn [fst snd]. eexists. eexists.
  split; [reflexivity|]. split; [reflexivity|]. split; [reflexivity|].
  split; [apply lookup_insert_eq|]. repeat split; reflexivity.
Qed.

(** C5 (as amended). A heartbeat for a worker id that is not in the
    registry is accepted like any other: the answer is the success body
    with status 200, and the worker is recorded in the registry under that
    id with the status, job count, metrics and capabilities it reported. *)
Theorem heartbeat_registers_unknown_worker
        (workerId : string) (hb : HeartbeatData) (now : Z) (registry : gmap string Entry) :
  registry !! workerId = None ->
  exists body e,
    (POST workerId (Some hb) now registry).2 = Json200 body
    /\ success body = true
    /\ globalWorkerCount (stats body) = S (size registry)
    /\ (POST workerId (Some hb) now registry).1 !! workerId = Some e
    /\ w_id e = workerId
    /\ w_status e = status hb
    /\ w_currentJobs e = currentJobs hb
    /\ w_lastSeen e = now
    /\ w_metrics e = metrics hb
    /\ w_capabilities e = capabilities hb.
Proof.
  intros Hnew. unfold POST. cbv zeta. cbn [fst snd]. rewrite Hnew. cbn [mbind option_bind].
  eexists. eexists.
  split; [reflexivity|]. split; [reflexivity|].
  split; [cbn [stats globalWorkerCount]; apply map_size_insert_None; exact Hnew|].
  split; [apply lookup_insert_eq|].
  repeat split; try reflexivity.
  cbn [w_capabilities]. destruct (capabilities hb); reflexivity.
Qed.

Lemma heartbeat_registers_unknown_worker_witness :
  exists body e,
    (POST "ghost" (Some Sample.heartbeat) 1000 ∅).2 = Json200 body
    /\ success body = true
    /\ globalWorkerCount (stats body) = S (size (∅ : gmap string Entry))
    /\ (POST "ghost" (Some Sample.heartbeat) 1000 ∅).1 !! "ghost" = Some e
    /\ w_id e = "ghost"%string
    /\ w_status e = status Sample.heartbeat
    /\ w_currentJobs e = currentJobs Sample.heartbeat
    /\ w_lastSeen e = 1000
    /\ w_metrics e = metrics Sample.heartbeat
    /\ w_capabilities e = capabilities Sample.heartbeat.
Proof.
  apply (heartbeat_registers_unknown_worker "ghost" Sample.heartbeat 1000 ∅).
  reflexivity.
Defined.

(** C5 (as stated) fails: on an empty registry a heartbeat from [ghost]
    is not an error and [ghost] is in the registry afterwards. *)
Lemma unknown_worker_heartbeat_is_recorded :
  (∅ : gmap string Entry) !! "ghost" = None
  /\ (exists body, (POST "ghost" (Some Sample.heartbeat) 1000 ∅).2 = Json200 body
                   /\ success body = true)
  /\ w_status <$> (POST "ghost" (Some Sample.heartbeat) 1000 ∅).1 !! "ghost" = Some online.
Proof.
  split; [reflexivity|].
  destruct (POST_accepts "ghost" Sample.heartbeat 1000 ∅)
    as (body & e & Hresp & Hok & _ & Hreg & _ & Hst & _).
  split.
  - exists body. split; assumption.
  - rewrite Hreg. cbn. rewrite Hst. reflexivity.
Qed.

End HeartbeatFacts.

Module WorkerLifecycleFacts.
Import Worker WorkerTally.

Lemma totalJobsProcessed_step w e :
  totalJobsProcessed (resources (step w e))
  = match e with
    | Assign => totalJobsProcessed (resources w)
    | Complete _ _ => totalJobsProcessed (resources w) + 1
    end.
Proof.
  destruct e; simpl; [unfold assignJob | unfold completeJob]; case_decide; reflexivity.
Qed.

Lemma rates_assignJob w :
  successRate (resources (assignJob w)) = successRate (resources w)
  /\ averageJobDuration (resources (assignJob w)) = averageJobDuration (resources w).
Proof. unfold assignJob. case_decide; split; reflexivity. Qed.

Lemma averageJobDuration_completeJob s d w :
  averageJobDuration (resources (completeJob s d w)) =
  ((averageJobDuration (resources w) * Qc_of_Z (totalJobsProcessed (resources w)) + d)
   / Qc_of_Z (totalJobsProcessed (resources w) + 1))%Qc.
Proof.
  unfold completeJob. cbv zeta.
  replace (totalJobsProcessed (resources w) + 1 - 1) with (totalJobsProcessed (resources w)) by lia.
  case_decide; reflexivity.
Qed.

Lemma successRate_completeJob_eq s d w :
  successRate (resources (completeJob s d w)) =
  ((successRate (resources w) * Qc_of_Z (totalJobsProcessed (resources w))
    + (if s then 1 else 0)) / Qc_of_Z (totalJobsProcessed (resources w) + 1))%Qc.
Proof. apply WorkerFacts.successRate_completeJob. Qed.

Lemma completions_nonneg es : 0 <= completions es.
Proof. induction es as [|[|s d] es IH]; simpl; lia. Qed.

(** The running totals: rate times count and average times count move
    by exactly the outcome and the duration of each completed job. *)
Lemma tally_run es : forall w (S D : Qc),
  0 <= totalJobsProcessed (resources w) ->
  (successRate (resources w) * Qc_of_Z (totalJobsProcessed (resources w)))%Qc = S ->
  (averageJobDuration (resources w) * Qc_of_Z (totalJobsProcessed (resources w)))%Qc = D ->
  totalJobsProcessed (resources (run w es)) = totalJobsProcessed (resources w) + completions es
  /\ (successRate (resources (run w es))
      * Qc_of_Z (totalJobsProcessed (resources (run w es))))%Qc
     = (S + Qc_of_Z (successes es))%Qc
  /\ (averageJobDuration (resources (run w es))
      * Qc_of_Z (totalJobsProcessed (resources (run w es))))%Qc
     = (D + durations es)%Qc.
Proof.
  induction es as [|e es IH]; intros w S D Hn HS HD.
  - cbn [run foldl completions successes durations].
    rewrite Z2Qc_inj_0. repeat split; [lia | rewrite HS; ring | rewrite HD; ring].
  - change (run w (e :: es)) with (run (step w e) es).
    destruct e as [|s d].
    + destruct (rates_assignJob w) as [Hr Ha].
      destruct (IH (step w Assign) S D) as (Hn' & HS' & HD').
      * rewrite totalJobsProcessed_step. exact Hn.
      * rewrite totalJobsProcessed_step. cbn [step]. rewrite Hr. exact HS.
      * rewrite totalJobsProcessed_step. cbn [step]. rewrite Ha. exact HD.
      * rewrite totalJobsProcessed_step in Hn'. cbn [completions successes durations].
        repeat split; assumption.
    + assert (Hnz : Qc_of_Z (totalJobsProcessed (resources w) + 1) <> 0%Qc).
      { intros Heq. rewrite <- Z2Qc_inj_0 in Heq. apply Z2Qc_inj in Heq. lia. }
      destruct (IH (step w (Complete s d))
                   (S + (if s then 1 else 0))%Qc (D + d)%Qc) as (Hn' & HS' & HD').
      * rewrite totalJobsProcessed_step. lia.
      * rewrite totalJobsProcessed_step. cbn [step].
        rewrite successRate_completeJob_eq, HS. field. exact Hnz.
      * rewrite totalJobsProcessed_step. cbn [step].
        rewrite averageJobDuration_completeJob, HD. field. exact Hnz.
      * rewrite totalJobsProcessed_step in Hn'.
        split; [cbn [completions]; lia|]. split.
        -- rewrite HS'. destruct s; cbn [successes].
           ++ rewrite Z2Qc_inj_add, Z2Qc_inj_1. ring.
           ++ ring.
        -- rewrite HD'. cbn [durations]. ring.
Qed.

(** X1. For a worker that has processed no job yet, after any sequence
    of [assignJob] and [completeJob] that completes at least one job,
    [totalJobsProcessed] is the number of completed jobs, [successRate] is
    exactly the fraction of them that succeeded and [averageJobDuration]
    exactly the mean of their durations: the incremental updates agree
    with a recomputation from the whole history. *)
Theorem rolling_figures_match_history (w : IWorker) (es : list Event) :
  totalJobsProcessed (resources w) = 0 ->
  0 < completions es ->
  totalJobsProcessed (resources (run w es)) = completions es
  /\ successRate (resources (run w es))
     = (Qc_of_Z (successes es) / Qc_of_Z (completions es))%Qc
  /\ averageJobDuration (resources (run w es))
     = (durations es / Qc_of_Z (completions es))%Qc.
Proof.
  intros H0 Hpos.
  destruct (tally_run es w 0%Qc 0%Qc) as (Hn & HS & HD).
  - lia.
  - rewrite H0, Z2Qc_inj_0. ring.
  - rewrite H0, Z2Qc_inj_0. ring.
  - rewrite H0, Z.add_0_l in Hn. rewrite Hn in HS, HD.
    assert (Hnz : Qc_of_Z (completions es) <> 0%Qc).
    { intros Heq. rewrite <- Z2Qc_inj_0 in Heq. apply Z2Qc_inj in Heq. lia. }
    split; [exact Hn|]. split.
    + transitivity ((successRate (resources (run w es)) * Qc_of_Z (completions es))
                    / Qc_of_Z (completions es))%Qc.
      * field. exact Hnz.
      * rewrite HS. field. exact Hnz.
    + transitivity ((averageJobDuration (resources (run w es)) * Qc_of_Z (completions es))
                    / Qc_of_Z (completions es))%Qc.
      * field. exact Hnz.
      * rewrite HD. field. exact Hnz.
Qed.

Lemma rolling_figures_match_history_witness :
  totalJobsProcessed
    (resources (run (registered "w1" 2)
                    [Assign; Complete true (Qc_of_Z 3000); Assign; Complete false (Qc_of_Z 5000)]))
  = completions [Assign; Complete true (Qc_of_Z 3000); Assign; Complete false (Qc_of_Z 5000)]
  /\ successRate
       (resources (run (registered "w1" 2)
                       [Assign; Complete true (Qc_of_Z 3000); Assign;
                        Complete false (Qc_of_Z 5000)]))
     = (Qc_of_Z (successes [Assign; Complete true (Qc_of_Z 3000); Assign;
                            Complete false (Qc_of_Z 5000)])
        / Qc_of_Z (completions [Assign; Complete true (Qc_of_Z 3000); Assign;
                                Complete false (Qc_of_Z 5000)]))%Qc
  /\ averageJobDuration
       (resources (run (registered "w1" 2)
                       [Assign; Complete true (Qc_of_Z 3000); Assign;
                        Complete false (Qc_of_Z 5000)]))
     = (durations [Assign; Complete true (Qc_of_Z 3000); Assign; Complete false (Qc_of_Z 5000)]
        / Qc_of_Z (completions [Assign; Complete true (Qc_of_Z 3000); Assign;
                                Complete false (Qc_of_Z 5000)]))%Qc.
Proof.
  apply (rolling_figures_match_history (registered "w1" 2)).
  - reflexivity.
  - cbn. lia.
Defined.

Lemma coherent_step w e : coherent w -> coherent (step w e).
Proof.
  unfold coherent. intros [Hnn Hst].
  pose proof (WorkerFacts.maxConcurrentJobs_step w e) as Hmax.
  destruct e as [|s d]; cbn [step] in *.
  - pose proof (WorkerFacts.currentJobs_assignJob w) as Hcj.
    rewrite Hmax, Hcj. split; [lia|].
    unfold assignJob. cbv zeta. case_decide as Hfull; cbn in Hfull |- *.
    + left. split; [reflexivity|lia].
    + right. split; [|lia]. destruct Hst as [[_ Hover]|[Hon _]]; [lia|exact Hon].
  - pose proof (WorkerFacts.currentJobs_completeJob s d w) as Hcj.
    rewrite Hmax, Hcj. split; [lia|].
    unfold completeJob. cbv zeta. case_decide as Hfree; cbn in Hfree |- *.
    + right. split; [reflexivity|lia].
    + left. split; [|lia]. destruct Hst as [[Hbusy _]|[_ Hunder]]; [exact Hbusy|lia].
Qed.

(** X2. Once a worker's status agrees with its load ([busy] at or over
    capacity, [online] below it, counter not negative), it does so after
    every sequence of [assignJob] and [completeJob], admitted or not. *)
Theorem status_follows_load (w : IWorker) (es : list Event) :
  coherent w -> Forall coherent (history w es).
Proof.
  revert w. induction es as [|e es IH]; intros w Hw; cbn [history].
  - constructor; [exact Hw|constructor].
  - constructor; [exact Hw|]. apply IH, coherent_step, Hw.
Qed.

Lemma status_follows_load_witness :
  Forall coherent (history (Sample.worker "w1" 2 0 1 10)
                           [Assign; Assign; Assign; Complete true 0%Qc; Complete true 0%Qc]).
Proof.
  apply (status_follows_load (Sample.worker "w1" 2 0 1 10)).
  unfold coherent. cbn. split; [lia|]. right. split; [reflexivity|lia].
Defined.

End WorkerLifecycleFacts.

Module MonitoringFacts.
Import WorkerMonitoring.

(** Pushing one entry and keeping the last [n]: the result has
    [min n (length + 1)] entries, ends with the new entry and is the tail
    end of the pushed list. *)
Lemma push_and_keep_last {A : Type} (n : nat) (old : list A) (x : A) :
  (0 < n)%nat ->
  let pushed := old ++ [x] in
  let kept := if decide (n < length pushed)%nat then slice_last n pushed else pushed in
  length kept = Nat.min n (length old + 1)
  /\ last kept = Some x
  /\ kept `suffix_of` pushed.
Proof.
  intros Hn pushed kept.
  assert (Hlen : length pushed = (length old + 1)%nat).
  { unfold pushed. rewrite length_app. reflexivity. }
  assert (Hsuf : kept `suffix_of` pushed).
  { unfold kept. case_decide; [apply suffix_drop|reflexivity]. }
  assert (Hklen : length kept = Nat.min n (length old + 1)).
  { unfold kept. case_decide.
    - unfold slice_last. rewrite length_drop. lia.
    - lia. }
  split; [exact Hklen|]. split; [|exact Hsuf].
  destruct Hsuf as [front Hfront].
  assert (Hlast : last pushed = Some x) by apply last_snoc.
  rewrite Hfront, last_app in Hlast.
  destruct (last kept) as [y|] eqn:Hk; [exact Hlast|].
  apply last_None in Hk. rewrite Hk in Hklen. cbn in Hklen. lia.
Qed.

(** X3. The three recording methods keep a bounded history that always
    ends with the entry just recorded: health checks are capped at 100,
    errors at 500, metric samples at 1000, whatever the length before,
    and what is kept is the most recent end of the record. *)
Theorem recording_is_bounded_and_keeps_latest
        (m : Monitoring) (now : Z) (c : Checks) (st : Health)
        (ty : ErrorType) (msg : string) (d : MetricsData) :
  (length (healthChecks (addHealthCheck c st now m))
   = Nat.min 100 (length (healthChecks m) + 1)
   /\ last (healthChecks (addHealthCheck c st now m)) = Some (mkHealthCheck now st c)
   /\ healthChecks (addHealthCheck c st now m)
      `suffix_of` (healthChecks m ++ [mkHealthCheck now st c]))
  /\ (length (errors (addError ty msg now m)) = Nat.min 500 (length (errors m) + 1)
      /\ last (errors (addError ty msg now m)) = Some (mkErrorEntry now ty msg false)
      /\ errors (addError ty msg now m)
         `suffix_of` (errors m ++ [mkErrorEntry now ty msg false]))
  /\ (length (metrics (updateMetrics d now m)) = Nat.min 1000 (length (metrics m) + 1)
      /\ last (metrics (updateMetrics d now m)) = Some (mkMetricSample now d)
      /\ metrics (updateMetrics d now m) `suffix_of` (metrics m ++ [mkMetricSample now d])
      /\ res_memoryUsage (updateMetrics d now m) = Some (memoryUsage d)
      /\ res_cpuUsage (updateMetrics d now m) = Some (cpuUsage d)).
Proof.
  split; [|split].
  - apply (push_and_keep_last 100 (healthChecks m) (mkHealthCheck now st c)). lia.
  - apply (push_and_keep_last 500 (errors m) (mkErrorEntry now ty msg false)). lia.
  - pose proof (push_and_keep_last 1000 (metrics m) (mkMetricSample now d)) as H.
    destruct H as (H1 & H2 & H3); [lia|]. repeat split; assumption.
Qed.

Lemma markOffline_one now w :
  ~ is_lapsed now (if decide (is_lapsed now w) then Worker.with_status Worker.offline w else w).
Proof.
  case_decide as Hl; [|exact Hl]. unfold is_lapsed. cbn. intros [_ Hne]. apply Hne. reflexivity.
Qed.

(** X4. [markOfflineWorkers] sets every worker last seen more than two
    minutes ago to [offline] and changes nothing else: the pool keeps its
    length and order, a worker differs from what it was in its status at
    most ([lastSeen] included), and a worker seen within the two minutes
    is exactly as it was. So no worker is left that is overdue and not
    [offline], and running the sweep again at the same time changes
    nothing. *)
Theorem markOfflineWorkers_sweeps_lapsed (now : Z) (ws : list Worker.IWorker) :
  length (markOfflineWorkers now ws) = length ws
  /\ (forall i w,
        ws !! i = Some w ->
        exists w',
          markOfflineWorkers now ws !! i = Some w'
          /\ w' = Worker.with_status (Worker.status w') w
          /\ (Worker.lastSeen (Worker.connection w) < now - 2 * 60 * 1000 ->
              Worker.status w' = Worker.offline)
          /\ (now - 2 * 60 * 1000 <= Worker.lastSeen (Worker.connection w) -> w' = w))
  /\ Forall (fun w => ~ is_lapsed now w) (markOfflineWorkers now ws)
  /\ markOfflineWorkers now (markOfflineWorkers now ws) = markOfflineWorkers now ws.
Proof.
  unfold markOfflineWorkers. split; [apply length_fmap|]. split; [|split].
  - intros i w Hw. rewrite list_lookup_fmap, Hw. cbn [fmap option_fmap option_map].
    eexists. split; [reflexivity|].
    destruct (decide (is_lapsed now w)) as [[Hold Hst]|Hl].
    + split; [reflexivity|]. split; [reflexivity|lia].
    + split; [destruct w; reflexivity|]. split; [|reflexivity].
      intros Hold. destruct (decide (Worker.status w = Worker.offline)) as [Hoff|Hon];
        [exact Hoff|]. exfalso. apply Hl. split; assumption.
  - apply Forall_fmap, Forall_forall. intros w _. apply markOffline_one.
  - rewrite <- list_fmap_compose. apply list_fmap_ext. intros i w _. cbn.
    pose proof (markOffline_one now w) as Hnot.
    destruct (decide (is_lapsed now w)) as [Hl|Hl]; case_decide; try reflexivity; contradiction.
Qed.

(** A worker silent for an hour is swept to [offline]; one seen a minute
    ago stays [online]. *)
Lemma sweep_after_an_hour :
  Worker.status <$> markOfflineWorkers 3600000
                      [Sample.worker "w1" 1 0 1 10;
                       Worker.with_connection (Worker.mkConnection "10.0.0.1" 3540000)
                                              (Sample.worker "w2" 3 1 1 10)]
  = [Worker.offline; Worker.online].
Proof. vm_compute. reflexivity. Qed.

End MonitoringFacts.

Module JobLifecycleFacts.
Import Job.

Lemma execution_after_running d t j :
  execution (updateStatus running d t j)
  = mkExecution (Some t) (endTime (execution j)) (duration (execution j))
                (attempts (execution j) + 1) (Some t) (logs (execution j))
                (match d with
                 | Some x => x ∪ results (execution j)
                 | None => results (execution j)
                 end).
Proof. unfold updateStatus. destruct d; reflexivity. Qed.

Lemma execution_after_finish fin d t j :
  fin = completed \/ fin = failed ->
  execution (updateStatus fin d t j)
  = mkExecution (startTime (execution j)) (Some t)
                (match startTime (execution j) with
                 | Some t0 => Some (t - t0)
                 | None => duration (execution j)
                 end)
                (attempts (execution j)) (lastAttempt (execution j)) (logs (execution j))
                (match d with
                 | Some x => x ∪ results (execution j)
                 | None => results (execution j)
                 end).
Proof. intros [->| ->]; unfold updateStatus; destruct d; reflexivity. Qed.

(** X5. A job moved to [running] at time [t1] and then to [completed]
    or [failed] at time [t2] ends with [startTime = t1], [endTime = t2],
    [duration = t2 - t1], one attempt more than before and its log and
    assignment untouched; a job moved to [completed] or [failed] without
    a start time gets the end time and keeps whatever duration it had. *)
Theorem run_then_finish_records_duration
        (j : IJob) (fin : Status) (d1 d2 : option (gmap string string)) (t1 t2 : Z) :
  fin = completed \/ fin = failed ->
  let j2 := updateStatus fin d2 t2 (updateStatus running d1 t1 j) in
  status j2 = fin
  /\ startTime (execution j2) = Some t1
  /\ endTime (execution j2) = Some t2
  /\ duration (execution j2) = Some (t2 - t1)
  /\ attempts (execution j2) = attempts (execution j) + 1
  /\ lastAttempt (execution j2) = Some t1
  /\ logs (execution j2) = logs (execution j)
  /\ assignedWorker j2 = assignedWorker j
  /\ (startTime (execution j) = None ->
      endTime (execution (updateStatus fin d2 t2 j)) = Some t2
      /\ duration (execution (updateStatus fin d2 t2 j)) = duration (execution j)
      /\ attempts (execution (updateStatus fin d2 t2 j)) = attempts (execution j)).
Proof.
  intros Hfin j2. subst j2.
  rewrite !(execution_after_finish fin d2 t2 _ Hfin), execution_after_running.
  cbn [startTime endTime duration attempts lastAttempt logs].
  split; [reflexivity|]. do 6 (split; [reflexivity|]). split; [reflexivity|].
  intros Hnone. rewrite Hnone. split; [reflexivity|]. split; reflexivity.
Qed.

Lemma run_then_finish_records_duration_witness :
  let j2 := updateStatus completed None 900 (updateStatus running None 600 Sample.job_priority_3) in
  status j2 = completed
  /\ startTime (execution j2) = Some 600
  /\ endTime (execution j2) = Some 900
  /\ duration (execution j2) = Some (900 - 600)
  /\ attempts (execution j2) = attempts (execution Sample.job_priority_3) + 1
  /\ lastAttempt (execution j2) = Some 600
  /\ logs (execution j2) = logs (execution Sample.job_priority_3)
  /\ assignedWorker j2 = assignedWorker Sample.job_priority_3
  /\ (startTime (execution Sample.job_priority_3) = None ->
      endTime (execution (updateStatus completed None 900 Sample.job_priority_3)) = Some 900
      /\ duration (execution (updateStatus completed None 900 Sample.job_priority_3))
         = duration (execution Sample.job_priority_3)
      /\ attempts (execution (updateStatus completed None 900 Sample.job_priority_3))
         = attempts (execution Sample.job_priority_3)).
Proof.
  apply (run_then_finish_records_duration Sample.job_priority_3 completed None None 600 900).
  left. reflexivity.
Defined.

Lemma results_updateStatus st data now j :
  results (execution (updateStatus st data now j))
  = match data with
    | Some d => d ∪ results (execution j)
    | None => results (execution j)
    end.
Proof. unfold updateStatus. cbv zeta. destruct data; repeat case_decide; reflexivity. Qed.

(** X6. Results reported with a status change are merged field by field:
    a field of the report replaces the stored one, every stored field the
    report does not mention is kept, and a change without a report leaves
    the results as they were; over two reports the later one wins. *)
Theorem reported_results_are_merged
        (j : IJob) (st1 st2 : Status) (d1 d2 : gmap string string) (t1 t2 : Z) (k : string) :
  results (execution (updateStatus st1 (Some d1) t1 j)) !! k
  = match d1 !! k with
    | Some v => Some v
    | None => results (execution j) !! k
    end
  /\ results (execution (updateStatus st1 None t1 j)) = results (execution j)
  /\ results (execution (updateStatus st2 (Some d2) t2 (updateStatus st1 (Some d1) t1 j))) !! k
     = match d2 !! k with
       | Some v => Some v
       | None => match d1 !! k with
                 | Some v => Some v
                 | None => results (execution j) !! k
                 end
       end.
Proof.
  rewrite !results_updateStatus. split; [|split].
  - rewrite lookup_union. destruct (d1 !! k), (results (execution j) !! k); reflexivity.
  - reflexivity.
  - rewrite !lookup_union.
    destruct (d2 !! k), (d1 !! k), (results (execution j) !! k); reflexivity.
Qed.

End JobLifecycleFacts.

Module ServiceFacts.
Import JobService.

Section WithPlatform.
Context `{Platform}.

(** The document [new Job] builds from job data, and the two log
    messages of creation. *)
Lemma createJob_fresh_valid jobData now db :
  validate (name jobData) (url jobData) (JS.optnum_or (priority jobData) 5)
           (createdBy jobData) = [] ->
  jobs db !! nanoid (issued db) = None ->
  let job :=
    Job.mkJob (nanoid (issued db)) (JS.trim (default ""%string (name jobData)))
              (default ""%string (url jobData)) (default Job.single (type jobData))
              Job.pending (JS.optnum_or (priority jobData) 5) None None
              (Job.mkExecution None None None 0 None [] ∅)
              (Job.mkMetadata (createdBy jobData) now now (default [] (tags jobData))) in
  let stored :=
    if decide (default Job.single (type jobData) = Job.single)
    then Job.addLog "info" "Job created successfully" now
           (Job.addLog "info" "Job queued for execution" now
              (Job.updateStatus Job.queued None now job))
    else Job.addLog "info" "Job created successfully" now job in
  createJob jobData now db
  = (mkDB (<[nanoid (issued db) := stored]> (jobs db)) (workers db) (S (issued db)),
     Ok (Job.addLog "info" "Job created successfully" now job)).
Proof.
  intros Hval Hfresh. cbv zeta. unfold createJob. cbv zeta. rewrite Hval. cbn [jobs].
  rewrite Hfresh. cbn [Job.type].
  destruct (decide (default Job.single (type jobData) = Job.single)) as [Hty|Hty].
  - unfold queueJob. cbn [jobs with_jobs workers issued]. rewrite lookup_insert_eq.
    cbn [jobs with_jobs workers issued].
    rewrite insert_insert_eq, alter_insert_eq. reflexivity.
  - cbn [jobs with_jobs workers issued]. rewrite alter_insert_eq. reflexivity.
Qed.

(** When [createJob] throws, no job has been stored or changed. *)
Lemma createJob_throws jobData now db e :
  (createJob jobData now db).2 = Throw e ->
  jobs (createJob jobData now db).1 = jobs db
  /\ (e = DuplicateKeyError \/ exists paths, e = ValidationError paths /\ paths <> []).
Proof.
  destruct (validate (name jobData) (url jobData) (JS.optnum_or (priority jobData) 5)
                     (createdBy jobData)) as [|x paths] eqn:Hval.
  - destruct (jobs db !! nanoid (issued db)) as [old|] eqn:Hfresh.
    + unfold createJob. cbv zeta. rewrite Hval. cbn [jobs]. rewrite Hfresh.
      cbn [fst snd jobs]. intros [= <-]. split; [reflexivity|]. left. reflexivity.
    + rewrite (createJob_fresh_valid jobData now db Hval Hfresh). discriminate.
  - unfold createJob. cbv zeta. rewrite Hval. cbn [fst snd jobs]. intros [= <-].
    split; [reflexivity|]. right. exists (x :: paths). split; [reflexivity|discriminate].
Qed.

(** When [createJob] succeeds the data was valid and the identifier
    fresh. *)
Lemma createJob_succeeds jobData now db job :
  (createJob jobData now db).2 = Ok job ->
  validate (name jobData) (url jobData) (JS.optnum_or (priority jobData) 5)
           (createdBy jobData) = []
  /\ jobs db !! nanoid (issued db) = None.
Proof.
  unfold createJob. cbv zeta.
  destruct (validate _ _ _ _) as [|x paths]; [|discriminate].
  cbn [jobs]. destruct (jobs db !! nanoid (issued db)); [discriminate|].
  intros _. split; reflexivity.
Qed.

Lemma createJob_issues_one jobData now db :
  issued (createJob jobData now db).1 = S (issued db)
  /\ workers (createJob jobData now db).1 = workers db.
Proof.
  destruct (validate (name jobData) (url jobData) (JS.optnum_or (priority jobData) 5)
                     (createdBy jobData)) as [|x paths] eqn:Hval.
  - destruct (jobs db !! nanoid (issued db)) as [old|] eqn:Hfresh.
    + unfold createJob. cbv zeta. rewrite Hval. cbn [jobs]. rewrite Hfresh. split; reflexivity.
    + rewrite (createJob_fresh_valid jobData now db Hval Hfresh). split; reflexivity.
  - unfold createJob. cbv zeta. rewrite Hval. split; reflexivity.
Qed.


End WithPlatform.


End ServiceFacts.

Module RetryBatchFacts.
Import JobService.

(** X8. [retryJob] acts on [failed] jobs only: for a missing job or a
    job in any other status it returns [false] and changes nothing; a
    failed job is stored [queued] again with its assignment cleared, its
    attempt counter untouched and two entries added to its log. *)
Theorem retryJob_requeues_failed_jobs (id : string) (now : Z) (db : DB) :
  match jobs db !! id with
  | Some job =>
      if decide (Job.status job = Job.failed) then
        (retryJob id now db).2 = Ok true
        /\ workers (retryJob id now db).1 = workers db
        /\ exists stored,
             jobs (retryJob id now db).1 !! id = Some stored
             /\ Job.status stored = Job.queued
             /\ Job.assignedWorker stored = None
             /\ Job.workerInfo stored = None
             /\ Job.attempts (Job.execution stored) = Job.attempts (Job.execution job)
             /\ Job.message <$> Job.logs (Job.execution stored)
                = (Job.message <$> Job.logs (Job.execution job))
                  ++ ["Job queued for execution"; "Job manually retried"]%string
      else retryJob id now db = (db, Ok false)
  | None => retryJob id now db = (db, Ok false)
  end.
Proof.
  unfold retryJob. destruct (jobs db !! id) as [job|] eqn:Hjob; [|reflexivity].
  case_decide as Hfailed; [|reflexivity].
  unfold queueJob. cbn [jobs with_jobs]. rewrite lookup_insert_eq.
  cbn [fst snd jobs with_jobs workers].
  split; [reflexivity|]. split; [reflexivity|].
  eexists. split; [rewrite lookup_alter_eq, lookup_insert_eq; reflexivity|].
  cbn. rewrite !fmap_app, <- app_assoc. repeat split; reflexivity.
Qed.

Section WithPlatform.
Context `{Platform}.

Lemma batchStep_accounts batchData urls_ names clock db created errs i :
  let '(db1, created1, errs1) := batchStep batchData urls_ names clock (db, created, errs) i in
  (length created1 + length errs1 = length created + length errs + 1)%nat
  /\ issued db1 = S (issued db)
  /\ workers db1 = workers db
  /\ (forall P : nat * Error -> Prop,
        Forall P errs -> (forall e, P (S i, e)) -> Forall P errs1).
Proof.
  unfold batchStep.
  pose proof (ServiceFacts.createJob_issues_one
                (batchJobData batchData urls_ names i (clock i)) (clock i) db) as [Hi Hw].
  destruct (createJob _ _ db) as [db1 [job|e]]; cbn [fst snd] in *.
  - rewrite length_app. cbn. repeat split; [lia|exact Hi|exact Hw|]. intros P HP _. exact HP.
  - rewrite length_app. cbn. repeat split; [lia|exact Hi|exact Hw|].
    intros P HP Hnew. apply Forall_app. split; [exact HP|]. constructor; [apply Hnew|constructor].
Qed.

Lemma batch_loop_accounts batchData urls_ names clock (q : nat) is_ :
  forall db created errs,
    Forall (fun i => i < q)%nat is_ ->
    Forall (fun e : nat * Error => 1 <= e.1 <= q)%nat errs ->
    let '(db1, created1, errs1) :=
      foldl (batchStep batchData urls_ names clock) (db, created, errs) is_ in
    (length created1 + length errs1 = length created + length errs + length is_)%nat
    /\ issued db1 = (issued db + length is_)%nat
    /\ workers db1 = workers db
    /\ Forall (fun e : nat * Error => 1 <= e.1 <= q)%nat errs1.
Proof.
  induction is_ as [|i is_ IH]; intros db created errs Hidx Herrs; cbn [foldl].
  - cbn. repeat split; [lia|lia|exact Herrs].
  - apply Forall_cons in Hidx as [Hi Hidx].
    pose proof (batchStep_accounts batchData urls_ names clock db created errs i) as Hstep.
    destruct (batchStep batchData urls_ names clock (db, created, errs) i)
      as [[db1 created1] errs1].
    destruct Hstep as (Hlen & Hiss & Hws & HP).
    specialize (IH db1 created1 errs1 Hidx).
    destruct (foldl _ (db1, created1, errs1) is_) as [[db2 created2] errs2].
    destruct IH as (Hlen2 & Hiss2 & Hws2 & HP2).
    { apply HP; [exact Herrs|]. intros e. cbn. lia. }
    cbn [length]. repeat split; [lia|lia|congruence|exact HP2].
Qed.

(** X9. [createBatchJobs] accounts for every requested job: the number
    of jobs created plus the number of errors recorded is the quantity,
    [totalCreated] counts the jobs returned, [success] holds exactly when
    no error was recorded, every error carries a job number between 1
    and the quantity, one identifier is drawn per requested job whether
    or not its creation succeeds, and no worker is touched. *)
Theorem batch_accounts_for_every_job
        (batchData : BatchJobCreationData) (clock : nat -> Z) (db : DB) :
  (totalCreated (createBatchJobs batchData clock db).2
   + length (errors (createBatchJobs batchData clock db).2) = quantity batchData)%nat
  /\ length (batch_jobs (createBatchJobs batchData clock db).2)
     = totalCreated (createBatchJobs batchData clock db).2
  /\ (batch_success (createBatchJobs batchData clock db).2 = true
      <-> errors (createBatchJobs batchData clock db).2 = [])
  /\ Forall (fun e : nat * Error => 1 <= e.1 <= quantity batchData)%nat
            (errors (createBatchJobs batchData clock db).2)
  /\ issued (createBatchJobs batchData clock db).1 = (issued db + quantity batchData)%nat
  /\ workers (createBatchJobs batchData clock db).1 = workers db.
Proof.
  unfold createBatchJobs. cbv zeta.
  pose proof (batch_loop_accounts batchData
                (generateUrls (quantity batchData) (urlPattern batchData) (url (baseJob batchData)))
                (generateNames (quantity batchData) (namePattern batchData)
                               (name (baseJob batchData)))
                clock (quantity batchData) (indices (quantity batchData)) db [] []) as Hloop.
  destruct (foldl _ _ _) as [[db1 created] errs].
  destruct Hloop as (Hlen & Hiss & Hws & HP).
  { unfold indices. apply Forall_forall. intros i Hi. apply elem_of_seq in Hi. lia. }
  { constructor. }
  unfold indices in Hlen, Hiss. rewrite length_seq in Hlen, Hiss. cbn in Hlen.
  cbn [fst snd totalCreated errors batch_jobs batch_success issued workers].
  repeat split; try assumption; try lia.
  - intros Hb. apply bool_decide_eq_true in Hb. destruct errs; [reflexivity|discriminate].
  - intros ->. reflexivity.
Qed.

End WithPlatform.

(** A batch of three over a list of two URLs, one of which does not
    parse: two jobs are created, the second is recorded as an error. *)
Lemma batch_with_a_bad_url_is_partial :
  let r := (createBatchJobs (H := Sample.platform)
              (Sample.batch_of_three
                 (mkUrlPattern url_list (Some ["https://a.com"; "not a url"]%string) None None))
              (fun _ => 0) Sample.empty_store).2 in
  totalCreated r = 2%nat
  /\ errors r = [(2%nat, ValidationError ["url"%string])]
  /\ batch_success r = false.
Proof. repeat split; vm_compute; reflexivity. Qed.

End RetryBatchFacts.

Module ExpansionFacts.
Import JobService.

Lemma append_cons (c : ascii) (a b : string) : String c a +:+ b = String c (a +:+ b).
Proof. reflexivity. Qed.

Lemma append_nil (b : string) : "" +:+ b = b.
Proof. reflexivity. Qed.

Lemma length_append (a b : string) :
  String.length (a +:+ b) = (String.length a + String.length b)%nat.
Proof.
  induction a as [|c a IH]; [reflexivity|].
  rewrite append_cons. cbn [String.length]. rewrite IH. reflexivity.
Qed.

Lemma append_inv_tail (t a b : string) : a +:+ t = b +:+ t -> a = b.
Proof.
  revert b. induction a as [|c a IH]; intros [|c' b] Heq.
  - reflexivity.
  - apply (f_equal String.length) in Heq.
    rewrite append_nil, append_cons in Heq. cbn [String.length] in Heq.
    rewrite length_append in Heq. lia.
  - apply (f_equal String.length) in Heq.
    rewrite append_nil, append_cons in Heq. cbn [String.length] in Heq.
    rewrite length_append in Heq. lia.
  - rewrite !append_cons in Heq. injection Heq as -> Heq. f_equal. apply IH. exact Heq.
Qed.

Lemma append_inv_head (h a b : string) : h +:+ a = h +:+ b -> a = b.
Proof.
  induction h as [|c h IH]; [rewrite !append_nil; tauto|].
  rewrite !append_cons. intros [= Heq]. apply IH, Heq.
Qed.

(** A number printed between two fixed texts tells the number. *)
Lemma numbered_text_inj (pre post : string) (n m : Z) :
  pre +:+ JS.toString n +:+ post = pre +:+ JS.toString m +:+ post -> n = m.
Proof.
  intros Heq. apply append_inv_head, append_inv_tail in Heq.
  unfold JS.toString in Heq. apply (inj pretty) in Heq. exact Heq.
Qed.

Lemma NoDup_numbered (f : nat -> option string) (pre post : string) (start : Z) (q : nat) :
  (forall i, f i = Some (pre +:+ JS.toString (start + Z.of_nat i) +:+ post)) ->
  NoDup (f <$> indices q).
Proof.
  intros Hf. apply NoDup_fmap_2_strong; [|apply NoDup_seq].
  intros i j _ _ Heq. rewrite !Hf in Heq. injection Heq as Heq.
  apply numbered_text_inj in Heq. lia.
Qed.

Lemma replace_unfold pat by_ s :
  JS.replace pat by_ s
  = if JS.startsWith pat s then by_ +:+ JS.drop (String.length pat) s
    else match s with
         | EmptyString => EmptyString
         | String c s' => String c (JS.replace pat by_ s')
         end.
Proof. destruct s; reflexivity. Qed.

Lemma includes_unfold pat s :
  JSText.includes pat s
  = JS.startsWith pat s
    || match s with
       | EmptyString => false
       | String _ s' => JSText.includes pat s'
       end.
Proof. destruct s; reflexivity. Qed.

Lemma replace_without_placeholder pat by_ s :
  JSText.includes pat s = false -> JS.replace pat by_ s = s.
Proof.
  induction s as [|c s IH]; rewrite includes_unfold, replace_unfold;
    intros Hinc; apply orb_false_iff in Hinc as [Hsw Hrest]; rewrite Hsw.
  - reflexivity.
  - f_equal. apply IH, Hrest.
Qed.

Lemma replace_with_placeholder pat s :
  JSText.includes pat s = true ->
  exists pre post, forall by_, JS.replace pat by_ s = pre +:+ by_ +:+ post.
Proof.
  induction s as [|c s IH]; rewrite includes_unfold; intros Hinc.
  - rewrite orb_false_r in Hinc.
    exists ""%string, (JS.drop (String.length pat) ""). intros by_.
    rewrite replace_unfold, Hinc. reflexivity.
  - destruct (JS.startsWith pat (String c s)) eqn:Hsw.
    + exists ""%string, (JS.drop (String.length pat) (String c s)). intros by_.
      rewrite replace_unfold, Hsw. reflexivity.
    + cbn [orb] in Hinc. destruct (IH Hinc) as (pre & post & Hrep).
      exists (String c pre), post. intros by_.
      rewrite replace_unfold, Hsw, Hrep. reflexivity.
Qed.

Lemma includes_append_r pat x y :
  JSText.includes pat y = true -> JSText.includes pat (x +:+ y) = true.
Proof.
  intros Hy. induction x as [|c x IH]; [exact Hy|].
  rewrite append_cons, includes_unfold, IH. apply orb_true_r.
Qed.

Lemma length_generateNames quantity namePattern baseName :
  length (generateNames quantity namePattern baseName) = quantity.
Proof.
  unfold generateNames. cbv zeta.
  destruct namePattern as [[ty pre suf ns]|]; cbn [name_type].
  - destruct ty;
      [rewrite bool_decide_eq_true_2 by reflexivity
      |rewrite bool_decide_eq_false_2 by discriminate];
      try destruct ns; rewrite length_fmap; apply length_seq.
  - rewrite length_fmap. apply length_seq.
Qed.

(** X10. Unless a list of custom names is given, the names generated for
    a batch are all present and pairwise distinct, one per requested job:
    the sequence number tells them apart whatever the prefix, suffix or
    base name. *)
Theorem generated_names_are_distinct
        (quantity : nat) (namePattern : option NamePattern) (baseName : option string) :
  match namePattern with
  | Some p => name_type p = name_sequential \/ customNames p = None
  | None => True
  end ->
  length (generateNames quantity namePattern baseName) = quantity
  /\ Forall is_Some (generateNames quantity namePattern baseName)
  /\ NoDup (generateNames quantity namePattern baseName).
Proof.
  intros Hpat. split; [apply length_generateNames|].
  assert (Hseq : forall pre tail : string,
            NoDup ((fun i => Some (pre +:+ " " +:+ JS.toString (Z.of_nat i + 1) +:+ tail))
                     <$> indices quantity)).
  { intros pre tail. apply NoDup_fmap_2_strong; [|apply NoDup_seq].
    intros i j _ _ Heq. injection Heq as Heq.
    apply append_inv_head, append_inv_head, append_inv_tail in Heq.
    unfold JS.toString in Heq. apply (inj pretty) in Heq. lia. }
  assert (Hdef : forall pre : string,
            NoDup ((fun i => Some (pre +:+ " " +:+ JS.toString (Z.of_nat i + 1)))
                     <$> indices quantity)).
  { intros pre. apply NoDup_fmap_2_strong; [|apply NoDup_seq].
    intros i j _ _ Heq. injection Heq as Heq.
    apply append_inv_head, append_inv_head in Heq.
    unfold JS.toString in Heq. apply (inj pretty) in Heq. lia. }
  unfold generateNames. cbv zeta.
  destruct namePattern as [[ty pre suf ns]|]; cbn [name_type customNames] in *.
  - destruct ty.
    + rewrite bool_decide_eq_true_2 by reflexivity. split; [|apply Hseq].
      apply Forall_fmap, Forall_forall. intros i _. cbn. eexists. reflexivity.
    + rewrite bool_decide_eq_false_2 by discriminate.
      destruct Hpat as [Hpat| ->]; [discriminate Hpat|]. split; [|apply Hdef].
      apply Forall_fmap, Forall_forall. intros i _. cbn. eexists. reflexivity.
  - split; [|apply Hseq].
    apply Forall_fmap, Forall_forall. intros i _. cbn. eexists. reflexivity.
Qed.

Lemma generated_names_are_distinct_witness :
  length (generateNames 4 (Some (mkNamePattern name_sequential (Some "Product Monitor"%string)
                                              (Some "Daily Check"%string) None))
                        (Some "Base"%string)) = 4%nat
  /\ Forall is_Some
            (generateNames 4 (Some (mkNamePattern name_sequential (Some "Product Monitor"%string)
                                                  (Some "Daily Check"%string) None))
                           (Some "Base"%string))
  /\ NoDup (generateNames 4 (Some (mkNamePattern name_sequential (Some "Product Monitor"%string)
                                                 (Some "Daily Check"%string) None))
                          (Some "Base"%string)).
Proof.
  apply (generated_names_are_distinct 4
           (Some (mkNamePattern name_sequential (Some "Product Monitor"%string)
                                (Some "Daily Check"%string) None))
           (Some "Base"%string)).
  left. reflexivity.
Defined.

(** X11. In the sequential branch of [generateUrls] (type [sequential],
    or no pattern at all) the URLs are pairwise distinct when the template
    in force contains the placeholder [{number}], as the default template
    always does; when the given template does not contain it, every URL
    is the template itself. *)
Theorem sequential_urls_distinct_iff_placeholder
        (quantity : nat) (urlPattern : option UrlPattern) (baseUrl : option string) :
  match urlPattern with
  | Some p => url_type p = url_sequential
  | None => True
  end ->
  let template :=
    JS.optstr_or (urlPattern ≫= pattern) (JS.template baseUrl +:+ "?page={number}") in
  (JSText.includes "{number}" template = true ->
   NoDup (generateUrls quantity urlPattern baseUrl))
  /\ (JSText.includes "{number}" template = false ->
      forall i, (i < quantity)%nat ->
                generateUrls quantity urlPattern baseUrl !! i = Some (Some template))
  /\ (urlPattern ≫= pattern = None -> JSText.includes "{number}" template = true).
Proof.
  intros Hseq template.
  assert (Hgen : generateUrls quantity urlPattern baseUrl
                 = (fun i => Some (JS.replace "{number}"
                                     (JS.toString (JS.optnum_or (urlPattern ≫= startNumber) 1
                                                   + Z.of_nat i)) template))
                     <$> indices quantity).
  { unfold generateUrls. cbv zeta. destruct urlPattern as [p|]; [|reflexivity].
    rewrite bool_decide_eq_true_2 by exact Hseq. reflexivity. }
  split; [|split].
  - intros Hinc. rewrite Hgen.
    destruct (replace_with_placeholder "{number}" template Hinc) as (pre & post & Hrep).
    apply NoDup_fmap_2_strong; [|apply NoDup_seq].
    intros i j _ _ Heq. injection Heq as Heq. rewrite !Hrep in Heq.
    apply numbered_text_inj in Heq. lia.
  - intros Hinc i Hi. rewrite Hgen, list_lookup_fmap.
    unfold indices. rewrite lookup_seq_lt by exact Hi. cbn.
    rewrite replace_without_placeholder by exact Hinc. reflexivity.
  - intros Hnone. unfold template. rewrite Hnone. cbn [JS.optstr_or].
    apply includes_append_r. reflexivity.
Qed.

Lemma sequential_urls_distinct_iff_placeholder_witness :
  let template :=
    JS.optstr_or (Some Sample.pattern_from_5 ≫= pattern)
                 (JS.template (Some "https://x.com"%string) +:+ "?page={number}") in
  (JSText.includes "{number}" template = true ->
   NoDup (generateUrls 3 (Some Sample.pattern_from_5) (Some "https://x.com"%string)))
  /\ (JSText.includes "{number}" template = false ->
      forall i, (i < 3)%nat ->
                generateUrls 3 (Some Sample.pattern_from_5) (Some "https://x.com"%string) !! i
                = Some (Some template))
  /\ (Some Sample.pattern_from_5 ≫= pattern = None ->
      JSText.includes "{number}" template = true).
Proof.
  apply (sequential_urls_distinct_iff_placeholder
           3 (Some Sample.pattern_from_5) (Some "https://x.com"%string)).
  reflexivity.
Defined.

(** X12. [getVariation] draws from a non-empty pool round-robin: the
    value for index [i] is the element at [i mod length], so it is a
    member of the pool and repeats with the period of the pool's length;
    with no pool or an empty one it is the default. *)
Theorem getVariation_cycles_through_pool
        {T : Type} (pool : list T) (i : nat) (d : T) :
  pool <> [] ->
  pool !! (i mod length pool)%nat = Some (getVariation (Some pool) i d)
  /\ getVariation (Some pool) i d ∈ pool
  /\ getVariation (Some pool) (i + length pool) d = getVariation (Some pool) i d
  /\ getVariation None i d = d
  /\ getVariation (Some []) i d = d.
Proof.
  intros Hne.
  assert (Hlen : length pool <> 0%nat) by (destruct pool; [contradiction|discriminate]).
  assert (Hget : forall k, pool !! (k mod length pool)%nat = Some (getVariation (Some pool) k d)).
  { intros k. unfold getVariation. destruct pool as [|x pool]; [contradiction|].
    destruct ((x :: pool) !! (k mod length (x :: pool))%nat) as [v|] eqn:Hv; [reflexivity|].
    apply lookup_ge_None in Hv. pose proof (Nat.mod_upper_bound k (length (x :: pool)) Hlen). lia. }
  split; [apply Hget|]. split; [eapply list_elem_of_lookup_2, Hget|].
  split; [|split; reflexivity].
  pose proof (Hget (i + length pool)%nat) as H1. pose proof (Hget i) as H2.
  replace ((i + length pool) mod length pool)%nat with (i mod length pool)%nat in H1; [congruence|].
  rewrite <- (Nat.Div0.add_mod_idemp_r i (length pool)), Nat.Div0.mod_same, Nat.add_0_r.
  reflexivity.
Qed.

Lemma getVariation_cycles_through_pool_witness :
  [8; 9; 10] !! (4 mod length [8; 9; 10])%nat = Some (getVariation (Some [8; 9; 10]) 4 5)
  /\ getVariation (Some [8; 9; 10]) 4 5 ∈ [8; 9; 10]
  /\ getVariation (Some [8; 9; 10]) (4 + length [8; 9; 10]) 5 = getVariation (Some [8; 9; 10]) 4 5
  /\ getVariation (None : option (list Z)) 4 5 = 5
  /\ getVariation (Some ([] : list Z)) 4 5 = 5.
Proof.
  apply (getVariation_cycles_through_pool [8; 9; 10] 4 5). discriminate.
Defined.

End ExpansionFacts.

Module StoreFacts.
Import JobService.

Lemma id_completeJob s d w : Worker._id (Worker.completeJob s d w) = Worker._id w.
Proof. unfold Worker.completeJob. case_decide; reflexivity. Qed.

Lemma identifier_completeJob s d w :
  Worker.identifier (Worker.completeJob s d w) = Worker.identifier w.
Proof. unfold Worker.completeJob. case_decide; reflexivity. Qed.

Lemma saveWorker_elem w w' ws :
  w ∈ ws -> Worker._id w' = Worker._id w -> w' ∈ saveWorker w' ws.
Proof.
  intros Hin Hid. unfold saveWorker. apply list_elem_of_fmap. exists w.
  split; [|exact Hin]. rewrite decide_True by (symmetry; exact Hid). reflexivity.
Qed.

Lemma NoDup_fmap_elem_inj {A B : Type} (f : A -> B) (l : list A) (x y : A) :
  NoDup (f <$> l) -> x ∈ l -> y ∈ l -> f x = f y -> x = y.
Proof.
  induction l as [|a l IH]; intros Hnd Hx Hy Hf; [inversion Hx|].
  rewrite fmap_cons in Hnd. apply NoDup_cons in Hnd as [Hnotin Hnd].
  apply elem_of_cons in Hx as [->|Hx], Hy as [->|Hy].
  - reflexivity.
  - exfalso. apply Hnotin. rewrite Hf. apply list_elem_of_fmap_2, Hy.
  - exfalso. apply Hnotin. rewrite <- Hf. apply list_elem_of_fmap_2, Hx.
  - apply IH; assumption.
Qed.

Lemma saveWorker_twice w1 w2 ws :
  Worker._id w2 = Worker._id w1 ->
  saveWorker w2 (saveWorker w1 ws) = saveWorker w2 ws.
Proof.
  intros Hid. unfold saveWorker. rewrite <- list_fmap_compose.
  apply list_fmap_ext. intros i x _. cbn.
  destruct (decide (Worker._id x = Worker._id w1)) as [Hx|Hx].
  - rewrite !decide_True by congruence. reflexivity.
  - destruct (decide (Worker._id x = Worker._id w2)); reflexivity.
Qed.

End StoreFacts.

Module TraceFacts.
Import JobService ServiceTrace.

Lemma grown_refl j : grown j j.
Proof. unfold grown. repeat split; reflexivity. Qed.

Lemma grown_trans j1 j2 j3 : grown j1 j2 -> grown j2 j3 -> grown j1 j3.
Proof.
  unfold grown. intros (A1 & A2 & A3 & A4 & A5 & A6 & A7 & A8 & A9)
                       (B1 & B2 & B3 & B4 & B5 & B6 & B7 & B8 & B9).
  repeat split; try congruence. etransitivity; eassumption.
Qed.

Lemma grown_addLog lvl msg now j : grown j (Job.addLog lvl msg now j).
Proof. unfold grown. repeat split; try reflexivity. cbn. apply prefix_app_r. reflexivity. Qed.

Lemma grown_updateStatus st now j :
  st <> Job.running -> grown j (Job.updateStatus st None now j).
Proof.
  intros Hst. unfold grown, Job.updateStatus. cbv zeta.
  rewrite (decide_False (P := st = Job.running)) by exact Hst.
  case_decide; repeat split; reflexivity.
Qed.

Lemma grown_assignment a i now j :
  grown j (Job.with_updatedAt now (Job.with_assignment a i j)).
Proof. unfold grown. repeat split; reflexivity. Qed.

Lemma grown_reset now j :
  grown j (Job.with_updatedAt now
             (Job.with_assignment None None (Job.with_status Job.pending j))).
Proof. unfold grown. repeat split; reflexivity. Qed.

Lemma keeps_refl db : keeps db db.
Proof. intros id j Hj. exists j. split; [exact Hj|apply grown_refl]. Qed.

Lemma keeps_trans db1 db2 db3 : keeps db1 db2 -> keeps db2 db3 -> keeps db1 db3.
Proof.
  intros H12 H23 id j Hj. destruct (H12 id j Hj) as (j2 & Hj2 & G12).
  destruct (H23 id j2 Hj2) as (j3 & Hj3 & G23).
  exists j3. split; [exact Hj3|]. eapply grown_trans; eassumption.
Qed.

(** Writing a grown version of one job keeps the store. *)
Lemma keeps_insert db id0 j0 j0' ws n :
  jobs db !! id0 = Some j0 -> grown j0 j0' ->
  keeps db (mkDB (<[id0 := j0']> (jobs db)) ws n).
Proof.
  intros Hj0 Hg id j Hj. cbn [jobs]. destruct (decide (id0 = id)) as [->|Hne].
  - rewrite lookup_insert_eq. exists j0'. split; [reflexivity|].
    assert (j = j0) as -> by congruence. exact Hg.
  - rewrite lookup_insert_ne by exact Hne. exists j. split; [exact Hj|apply grown_refl].
Qed.

Lemma keeps_queueJob jobId now db : keeps db (queueJob jobId now db).1.
Proof.
  unfold queueJob. destruct (jobs db !! jobId) as [job|] eqn:Hjob; [|apply keeps_refl].
  cbn [fst]. unfold with_jobs. eapply keeps_insert; [exact Hjob|].
  eapply grown_trans; [apply (grown_updateStatus Job.queued); discriminate|apply grown_addLog].
Qed.

Lemma keeps_assignJobToWorker jobId workerId now db :
  keeps db (assignJobToWorker jobId workerId now db).1.
Proof.
  unfold assignJobToWorker. destruct (jobs db !! jobId) as [job|] eqn:Hjob; [|apply keeps_refl].
  destruct (selectWorker job workerId (workers db)) as [w|]; [|apply keeps_refl].
  cbn [fst]. eapply keeps_insert; [exact Hjob|].
  eapply grown_trans; [apply grown_assignment|apply grown_addLog].
Qed.

Lemma keeps_cancelJob jobId reason now db : keeps db (cancelJob jobId reason now db).1.
Proof.
  unfold cancelJob. destruct (jobs db !! jobId) as [job|] eqn:Hjob; [|apply keeps_refl].
  cbn [fst]. eapply keeps_insert; [exact Hjob|].
  eapply grown_trans; [apply (grown_updateStatus Job.cancelled); discriminate|apply grown_addLog].
Qed.

Lemma keeps_retryJob jobId now db : keeps db (retryJob jobId now db).1.
Proof.
  unfold retryJob. destruct (jobs db !! jobId) as [job|] eqn:Hjob; [|apply keeps_refl].
  case_decide; [|apply keeps_refl].
  unfold queueJob. cbn [jobs with_jobs]. rewrite lookup_insert_eq.
  cbn [fst jobs with_jobs]. rewrite insert_insert_eq, alter_insert_eq.
  eapply (keeps_insert db jobId job _ (workers db) (issued db)); [exact Hjob|].
  eapply grown_trans; [apply grown_reset|].
  eapply grown_trans; [apply (grown_updateStatus Job.queued); discriminate|].
  eapply grown_trans; apply grown_addLog.
Qed.

Lemma keeps_pull workerId now db : keeps db (JobPull.GET workerId now db).1.
Proof.
  unfold JobPull.GET. destruct workerId as [wid|]; [|apply keeps_refl].
  destruct (JS.truthy wid); [|apply keeps_refl].
  destruct (JobPull.getNextJobForWorker wid db) as [job|]; [|apply keeps_refl].
  pose proof (keeps_assignJobToWorker (Job._id job) (Some wid) now db) as Hk.
  destruct (assignJobToWorker (Job._id job) (Some wid) now db) as [db1 [r|e]]; exact Hk.
Qed.

Section WithPlatform.
Context `{Platform}.

Lemma keeps_createJob jobData now db : keeps db (createJob jobData now db).1.
Proof.
  intros id j Hj. exists j. split; [|apply grown_refl].
  apply BatchFacts.createJob_preserves. exact Hj.
Qed.

Lemma keeps_batch_loop batchData urls_ names clock is_ : forall db created errs,
  keeps db (foldl (batchStep batchData urls_ names clock) (db, created, errs) is_).1.1.
Proof.
  induction is_ as [|i is_ IH]; intros db created errs; cbn [foldl]; [apply keeps_refl|].
  pose proof (keeps_createJob (batchJobData batchData urls_ names i (clock i)) (clock i) db)
    as Hstep.
  unfold batchStep at 2.
  destruct (createJob (batchJobData batchData urls_ names i (clock i)) (clock i) db)
    as [db1 [job|e]]; cbn [fst] in Hstep;
    (eapply keeps_trans; [exact Hstep|apply IH]).
Qed.

Lemma keeps_createBatchJobs batchData clock db :
  keeps db (createBatchJobs batchData clock db).1.
Proof.
  unfold createBatchJobs. cbv zeta.
  pose proof (keeps_batch_loop batchData
                (generateUrls (quantity batchData) (urlPattern batchData) (url (baseJob batchData)))
                (generateNames (quantity batchData) (namePattern batchData)
                               (name (baseJob batchData)))
                clock (indices (quantity batchData)) db [] []) as Hloop.
  destruct (foldl _ _ _) as [[db1 created] errs]. exact Hloop.
Qed.

Lemma keeps_after db c : keeps db (after db c).
Proof.
  destruct c as [[jobData|batchData clock|jobId|jobId workerId|jobId reason|jobId|workerId] now];
    unfold after; cbn [fst snd].
  - apply keeps_createJob.
  - apply keeps_createBatchJobs.
  - apply keeps_queueJob.
  - apply keeps_assignJobToWorker.
  - apply keeps_cancelJob.
  - apply keeps_retryJob.
  - apply keeps_pull.
Qed.

(** X15. Over any sequence of service calls (create, batch create,
    queue, assign, cancel, retry, job pull) a stored job is never removed
    or replaced by another: it stays under its identifier with the same
    name, URL, type, priority and creator, its attempt counter never
    moves (no service call starts a job) and its log only grows at the
    end. *)
Theorem jobs_are_kept_and_logs_only_grow
        (cs : list (Call * Z)) (db : DB) (id : string) (j : Job.IJob) :
  jobs db !! id = Some j ->
  exists j', jobs (run db cs) !! id = Some j' /\ grown j j'.
Proof.
  revert db j. induction cs as [|c cs IH]; intros db j Hj; cbn [run foldl].
  - exists j. split; [exact Hj|apply grown_refl].
  - destruct (keeps_after db c id j Hj) as (j1 & Hj1 & G1).
    destruct (IH (after db c) j1 Hj1) as (j2 & Hj2 & G2).
    exists j2. split; [exact Hj2|]. eapply grown_trans; eassumption.
Qed.

End WithPlatform.

Lemma jobs_are_kept_and_logs_only_grow_witness :
  exists j',
    jobs (run (H := Sample.platform) Sample.store_two_workers
              [(QueueJob "j3", 20); (AssignJobToWorker "j3" None, 30);
               (CancelJob "j3" None, 40); (CreateJob (Sample.test_job None), 50);
               (RetryJob "j3", 60); (PullNextJob (Some "w2"%string), 70)])
    !! "j3" = Some j'
    /\ grown Sample.job_priority_3 j'.
Proof.
  apply (jobs_are_kept_and_logs_only_grow (H := Sample.platform) _ Sample.store_two_workers
           "j3" Sample.job_priority_3).
  reflexivity.
Defined.

End TraceFacts.

Module PullFacts.
Import JobService JobPull.

Lemma puller_query_false wid w : puller_query wid w = false.
Proof.
  unfold puller_query. rewrite AssignFacts.has_capacity_false. apply andb_false_r.
Qed.

(** The worker lookup of [getNextJobForWorker] finds nobody, so the job
    query is not reached. *)
Lemma getNextJobForWorker_None wid db : getNextJobForWorker wid db = None.
Proof.
  unfold getNextJobForWorker.
  rewrite AssignFacts.findOne_all_false by apply puller_query_false. reflexivity.
Qed.

(** X16. [getNextJobForWorker] offers no job, whatever the worker and the
    queue: its worker query has the capacity clause that compares
    [resources.currentJobs] with the text ['$capabilities.maxConcurrentJobs'],
    so the worker is reported as not available and the job query is not
    reached. [GET /jobs/next] therefore never answers with a job and
    writes nothing. In the sample store worker [w2] is online and runs 1
    job of 3, and the queued job of priority 3 is unassigned and within
    its filter; the pull for [w2] does not hand it out. *)
Theorem pull_offers_no_job :
  (forall (wid : string) (db : DB) (job : Job.IJob),
      getNextJobForWorker wid db <> Some job)
  /\ (forall (workerId : option string) (now : Z) (db : DB),
        (GET workerId now db).1 = db
        /\ forall job, (GET workerId now db).2 <> Data job)
  /\ (Sample.worker "w2" 3 1 1 10 ∈ workers Sample.store_two_workers
      /\ Worker.status (Sample.worker "w2" 3 1 1 10) = Worker.online
      /\ Worker.currentJobs (Worker.resources (Sample.worker "w2" 3 1 1 10))
         < Worker.maxConcurrentJobs (Worker.capabilities (Sample.worker "w2" 3 1 1 10))
      /\ jobs Sample.store_two_workers !! "j3"%string = Some Sample.job_priority_3
      /\ pullable "w2" (Sample.worker "w2" 3 1 1 10) Sample.job_priority_3 = true
      /\ (GET (Some "w2"%string) 70 Sample.store_two_workers).2 <> Data Sample.job_priority_3).
Proof.
  assert (HGET : forall workerId now db,
             (GET workerId now db).1 = db /\ forall job, (GET workerId now db).2 <> Data job).
  { intros workerId now db. unfold GET.
    destruct workerId as [wid|]; [|split; [reflexivity|discriminate]].
    destruct (JS.truthy wid); [|split; [reflexivity|discriminate]].
    rewrite getNextJobForWorker_None. split; [reflexivity|discriminate]. }
  split; [|split].
  - intros wid db job. rewrite getNextJobForWorker_None. discriminate.
  - exact HGET.
  - split; [unfold Sample.store_two_workers; cbn [workers]; apply elem_of_cons; right; apply elem_of_cons; left; reflexivity|].
    split; [reflexivity|]. split; [cbn; lia|]. split; [reflexivity|].
    split; [vm_compute; reflexivity|]. apply HGET.
Qed.

End PullFacts.

Module HeartbeatStatusFacts.
Import Heartbeat HeartbeatStatus.

Lemma POST_entry workerId hb now registry :
  (POST workerId (Some hb) now registry).1
  = <[workerId :=
        mkEntry workerId (status hb) now (currentJobs hb) (metrics hb) now (performance hb)
                (jobsCompleted (metrics hb)) (jobsFailed (metrics hb))
                (match capabilities hb with
                 | Some c => Some c
                 | None => registry !! workerId ≫= w_capabilities
                 end)]> registry.
Proof. reflexivity. Qed.

Lemma healthScore_offline e : w_status e = offline -> calculateHealthScore e = 0.
Proof. intros Hoff. unfold calculateHealthScore. cbv zeta. rewrite Hoff. reflexivity. Qed.

(** X18. A status query after a heartbeat: asked at most 60 seconds
    later it reports the status, job count, metrics and performance of
    the heartbeat, not stale, and leaves the registry as it is; asked
    later than that it reports the worker [offline] and stale with health
    score 0, and the registry entry itself becomes [offline]. A worker
    that never sent a heartbeat is not found. *)
Theorem status_query_after_heartbeat
        (workerId : string) (hb : HeartbeatData) (t0 t1 : Z) (registry : gmap string Entry) :
  let registry1 := (POST workerId (Some hb) t0 registry).1 in
  (t1 - t0 <= 60000 ->
   (GET workerId t1 registry1).1 = registry1
   /\ exists v, (GET workerId t1 registry1).2 = Found v
                /\ v_status v = status hb
                /\ isStale v = false
                /\ v_currentJobs v = currentJobs hb
                /\ v_metrics v = metrics hb
                /\ v_performance v = performance hb
                /\ v_lastSeen v = t0)
  /\ (60000 < t1 - t0 ->
      w_status <$> (GET workerId t1 registry1).1 !! workerId = Some offline
      /\ exists v, (GET workerId t1 registry1).2 = Found v
                   /\ v_status v = offline
                   /\ isStale v = true
                   /\ healthScore (v_calculated v) = 0
                   /\ v_currentJobs v = currentJobs hb)
  /\ (registry !! workerId = None -> GET workerId t1 registry = (registry, NotFound)).
Proof.
  intros registry1. subst registry1. rewrite POST_entry.
  split; [|split].
  - intros Hfresh. unfold GET. rewrite lookup_insert_eq. cbn [w_lastSeen w_status].
    rewrite (bool_decide_eq_false_2 (60000 < t1 - t0)) by lia. cbn [andb fst snd].
    split; [reflexivity|]. eexists. split; [reflexivity|]. repeat split; reflexivity.
  - intros Hstale. unfold GET. rewrite lookup_insert_eq. cbn [w_lastSeen w_status].
    rewrite (bool_decide_eq_true_2 (60000 < t1 - t0)) by lia. cbn [andb].
    destruct (decide (status hb = offline)) as [Hoff|Hon].
    + rewrite (bool_decide_eq_false_2 (status hb <> offline)) by tauto. cbn [fst snd].
      split; [rewrite lookup_insert_eq; cbn; rewrite Hoff; reflexivity|].
      eexists. split; [reflexivity|]. cbn [v_status v_calculated isStale v_currentJobs].
      split; [exact Hoff|]. split; [reflexivity|]. split; [|reflexivity].
      apply healthScore_offline. exact Hoff.
    + rewrite (bool_decide_eq_true_2 (status hb <> offline)) by exact Hon. cbn [fst snd].
      split; [rewrite lookup_insert_eq; reflexivity|].
      eexists. split; [reflexivity|]. cbn [v_status v_calculated isStale v_currentJobs].
      split; [reflexivity|]. split; [reflexivity|]. split; [|reflexivity].
      apply healthScore_offline. reflexivity.
  - intros Hnone. unfold GET. rewrite Hnone. reflexivity.
Qed.

Lemma status_query_after_heartbeat_witness :
  let registry1 := (POST "w1" (Some Sample.heartbeat) 1000 ∅).1 in
  (31000 - 1000 <= 60000 ->
   (GET "w1" 31000 registry1).1 = registry1
   /\ exists v, (GET "w1" 31000 registry1).2 = Found v
                /\ v_status v = status Sample.heartbeat
                /\ isStale v = false
                /\ v_currentJobs v = currentJobs Sample.heartbeat
                /\ v_metrics v = metrics Sample.heartbeat
                /\ v_performance v = performance Sample.heartbeat
                /\ v_lastSeen v = 1000)
  /\ (60000 < 31000 - 1000 ->
      w_status <$> (GET "w1" 31000 registry1).1 !! "w1" = Some offline
      /\ exists v, (GET "w1" 31000 registry1).2 = Found v
                   /\ v_status v = offline
                   /\ isStale v = true
                   /\ healthScore (v_calculated v) = 0
                   /\ v_currentJobs v = currentJobs Sample.heartbeat)
  /\ ((∅ : gmap string Entry) !! "w1" = None ->
      GET "w1" 31000 ∅ = (∅, NotFound)).
Proof.
  exact (status_query_after_heartbeat "w1" Sample.heartbeat 1000 31000 ∅).
Defined.

(** X19. A heartbeat from a worker already in the registry replaces its
    entry without changing the number of workers, and the capabilities on
    record survive it when the heartbeat carries none; when it carries
    capabilities they replace the recorded ones. No other entry is
    touched. *)
Theorem heartbeat_keeps_capabilities_on_record
        (workerId : string) (hb : HeartbeatData) (now : Z)
        (registry : gmap string Entry) (e : Entry) :
  registry !! workerId = Some e ->
  size (POST workerId (Some hb) now registry).1 = size registry
  /\ w_capabilities <$> (POST workerId (Some hb) now registry).1 !! workerId
     = Some (match capabilities hb with
             | Some c => Some c
             | None => w_capabilities e
             end)
  /\ (forall other, other <> workerId ->
        (POST workerId (Some hb) now registry).1 !! other = registry !! other).
Proof.
  intros He. rewrite POST_entry, He. cbn [mbind option_bind].
  split; [|split].
  - rewrite map_size_insert_Some; [reflexivity|]. rewrite He. eexists. reflexivity.
  - rewrite lookup_insert_eq. reflexivity.
  - intros other Hne. apply lookup_insert_ne. congruence.
Qed.

Lemma heartbeat_keeps_capabilities_on_record_witness :
  size (POST "w1" (Some Sample.heartbeat) 900 Sample.registry_with_w1).1
  = size Sample.registry_with_w1
  /\ w_capabilities <$> (POST "w1" (Some Sample.heartbeat) 900 Sample.registry_with_w1).1 !! "w1"
     = Some (match capabilities Sample.heartbeat with
             | Some c => Some c
             | None => Some (mkCapabilities 3 ["chrome"%string] 4096 4)
             end)
  /\ (forall other, other <> "w1"%string ->
        (POST "w1" (Some Sample.heartbeat) 900 Sample.registry_with_w1).1 !! other
        = Sample.registry_with_w1 !! other).
Proof.
  apply (heartbeat_keeps_capabilities_on_record "w1" Sample.heartbeat 900
           Sample.registry_with_w1
           (mkEntry "w1" busy 500 3 (metrics Sample.heartbeat) 500
                    (performance Sample.heartbeat) 12 1
                    (Some (mkCapabilities 3 ["chrome"%string] 4096 4)))).
  reflexivity.
Defined.

Lemma Qcmax_nonpos x : (x <= 0)%Qc -> Qcmax 0 x = 0%Qc.
Proof.
  intros Hx. unfold Qcmax. case_decide as H0; [|reflexivity].
  apply Qcle_antisym; assumption.
Qed.

Lemma Qc_minus_nonpos (x b : Qc) : (x <= b)%Qc -> (x - b <= 0)%Qc.
Proof.
  intros Hx. apply (Qcplus_le_mono_r _ _ b). ring_simplify. exact Hx.
Qed.

(** X20. The health score is always between 0 and 100; it is 0 for an
    [offline] worker whatever its figures, and 100 for a worker that is
    [online] or [busy] with CPU usage at most 80, memory usage at most
    3000 and a success rate of at least 95, or of 0, which the score
    takes for not reported. *)
Theorem healthScore_range_and_extremes (e : Entry) :
  0 <= calculateHealthScore e <= 100
  /\ (w_status e = offline -> calculateHealthScore e = 0)
  /\ (w_status e <> offline ->
      (cpuUsage (w_metrics e) <= Qc_of_Z 80)%Qc ->
      (memoryUsage (w_metrics e) <= Qc_of_Z 3000)%Qc ->
      successRate (w_performance e) = 0%Qc
      \/ (Qc_of_Z 95 <= successRate (w_performance e))%Qc ->
      calculateHealthScore e = 100).
Proof.
  split; [|split].
  - unfold calculateHealthScore. cbv zeta. lia.
  - apply healthScore_offline.
  - intros Hon Hcpu Hmem Hrate. unfold calculateHealthScore. cbv zeta.
    rewrite (Qcmax_nonpos _ (Qc_minus_nonpos _ _ Hcpu)).
    rewrite (Qcmax_nonpos _ (Qc_minus_nonpos _ _ Hmem)).
    assert (Hok : ~ (JS.rat_or (successRate (w_performance e)) (Qc_of_Z 100) < Qc_of_Z 95)%Qc).
    { unfold JS.rat_or. destruct Hrate as [-> | Hrate].
      - rewrite decide_True by reflexivity. apply Qcle_not_lt. vm_compute. discriminate.
      - case_decide; apply Qcle_not_lt; [vm_compute; discriminate|exact Hrate]. }
    rewrite decide_False by exact Hok.
    destruct (w_status e); [vm_compute; reflexivity|vm_compute; reflexivity|contradiction].
Qed.

Lemma healthScore_range_and_extremes_witness :
  0 <= calculateHealthScore (Sample.healthy_entry online) <= 100
  /\ (w_status (Sample.healthy_entry online) = offline ->
      calculateHealthScore (Sample.healthy_entry online) = 0)
  /\ (w_status (Sample.healthy_entry online) <> offline ->
      (cpuUsage (w_metrics (Sample.healthy_entry online)) <= Qc_of_Z 80)%Qc ->
      (memoryUsage (w_metrics (Sample.healthy_entry online)) <= Qc_of_Z 3000)%Qc ->
      successRate (w_performance (Sample.healthy_entry online)) = 0%Qc
      \/ (Qc_of_Z 95 <= successRate (w_performance (Sample.healthy_entry online)))%Qc ->
      calculateHealthScore (Sample.healthy_entry online) = 100).
Proof. exact (healthScore_range_and_extremes (Sample.healthy_entry online)). Defined.

(** The sample entry meets the conditions of the full score. *)
Lemma healthy_entry_scores_100 :
  calculateHealthScore (Sample.healthy_entry online) = 100
  /\ calculateHealthScore (Sample.healthy_entry busy) = 100
  /\ calculateHealthScore (Sample.healthy_entry offline) = 0.
Proof. repeat split; vm_compute; reflexivity. Qed.

End HeartbeatStatusFacts.

Module JobsRouteFacts.
Import JobService JobsRoute.

Section WithPlatform.
Context `{Platform}.

Lemma validate_nil n u p by_ :
  validate n u p by_ = [] ->
  name_valid n = true /\ url_valid u = true /\ priority_valid p = true /\ JS.truthy by_ = true.
Proof.
  unfold validate. intros Hnil.
  destruct (name_valid n); [|discriminate Hnil].
  destruct (url_valid u); [|discriminate Hnil].
  destruct (priority_valid p); [|discriminate Hnil].
  destruct (JS.truthy by_); [|discriminate Hnil].
  repeat split; reflexivity.
Qed.

Lemma optnum_or_idem x d : JS.optnum_or (Some (JS.optnum_or x d)) d = JS.optnum_or x d.
Proof.
  unfold JS.optnum_or, JS.num_or. destruct x as [n|].
  - destruct (decide (n = 0)) as [->|Hn].
    + destruct (decide (d = 0)); reflexivity.
    + rewrite decide_False by exact Hn. reflexivity.
  - destruct (decide (d = 0)); reflexivity.
Qed.

Lemma num_or_idem x d : JS.num_or (JS.optnum_or x d) d = JS.optnum_or x d.
Proof. apply (optnum_or_idem x d). Qed.

(** X21. The outcomes of [POST /jobs]. A 201 answer means the name and
    URL were present, the URL parsed, and a job is stored under the next
    identifier with the priority asked for (5 when none or 0 is given),
    which lies between 1 and 10, the creator defaulting to [system], and
    status [queued] for the default type [single], [pending] otherwise.
    A 400 answer or a 500 answer stores nothing. A name made of blanks
    only passes the handler's own check and fails in the model's
    validation, which gives the 500 answer. *)
Theorem POST_jobs_outcomes (body : Body) (now : Z) (db : DB) :
  match (POST body now db).2 with
  | Created job =>
      present (b_name body) = true
      /\ present (b_url body) = true
      /\ URL_parses (default ""%string (b_url body)) = true
      /\ Job._id job = nanoid (issued db)
      /\ exists stored,
           jobs (POST body now db).1 !! nanoid (issued db) = Some stored
           /\ Job.priority stored = JS.optnum_or (b_priority body) 5
           /\ 1 <= Job.priority stored <= 10
           /\ Job.type stored = default Job.single (b_type body)
           /\ Job.createdBy (Job.metadata stored) = JS.optstr_or (b_createdBy body) "system"
           /\ Job.status stored
              = (if decide (default Job.single (b_type body) = Job.single)
                 then Job.queued else Job.pending)
  | BadRequest _ =>
      (POST body now db).1 = db
      /\ (present (b_name body) = false
          \/ present (b_url body) = false
          \/ URL_parses (default ""%string (b_url body)) = false)
  | ServerError _ => jobs (POST body now db).1 = jobs db
  end
  /\ (forall s,
        b_name body = Some s -> JS.truthy s = true -> JS.trim s = ""%string ->
        present (b_url body) = true ->
        URL_parses (default ""%string (b_url body)) = true ->
        exists paths, (POST body now db).2 = ServerError (ValidationError paths)
                      /\ "name"%string ∈ paths).
Proof.
  unfold POST. split.
  - destruct (present (b_name body)) eqn:Hn; cbn [negb orb];
      [|split; [reflexivity|left; reflexivity]].
    destruct (present (b_url body)) eqn:Hu; cbn [negb orb];
      [|split; [reflexivity|right; left; reflexivity]].
    destruct (URL_parses (default ""%string (b_url body))) eqn:Hp; cbn [negb];
      [|split; [reflexivity|right; right; reflexivity]].
    set (jobData := mkCreateJobData _ _ _ _ _ _).
    destruct (createJob jobData now db) as [db1 [job|e]] eqn:Hcreate; cbn [fst snd].
    + assert (Hok : (createJob jobData now db).2 = Ok job) by (rewrite Hcreate; reflexivity).
      apply ServiceFacts.createJob_succeeds in Hok as [Hval Hfresh].
      pose proof (ServiceFacts.createJob_fresh_valid jobData now db Hval Hfresh) as Heq.
      cbv zeta in Heq. rewrite Hcreate in Heq. injection Heq as -> ->.
      apply validate_nil in Hval as (_ & _ & Hprio & _).
      subst jobData. cbn [priority type createdBy default] in *.
      rewrite ?optnum_or_idem, ?num_or_idem in Hprio.
      apply CreateFacts.priority_valid_iff in Hprio.
      repeat split; try reflexivity.
      eexists. cbn [jobs]. split; [apply lookup_insert_eq|].
      rewrite ?optnum_or_idem, ?num_or_idem.
      case_decide; (split; [reflexivity|]); (split; [exact Hprio|]);
        (split; [reflexivity|]); (split; reflexivity).
    + assert (Hthrow : (createJob jobData now db).2 = Throw e) by (rewrite Hcreate; reflexivity).
      apply ServiceFacts.createJob_throws in Hthrow as [Hjobs _].
      rewrite Hcreate in Hjobs. exact Hjobs.
  - intros s Hname Htruthy Hblank Hu Hp.
    assert (Hn : present (b_name body) = true) by (rewrite Hname; exact Htruthy).
    rewrite Hn, Hu, Hp. cbn [negb orb].
    unfold createJob. cbv zeta. cbn [name url priority createdBy type tags].
    unfold validate at 1. unfold name_valid at 1. rewrite Hname, Hblank. cbn [JS.truthy andb].
    cbn [app]. eexists. split; [reflexivity|]. left.
Qed.

End WithPlatform.

End JobsRouteFacts.

Module CancelEffects.
Import JobService.

Lemma findOne_unique w ws :
  NoDup (Worker.identifier <$> ws) ->
  w ∈ ws ->
  findOne (fun x => bool_decide (Worker.identifier x = Worker.identifier w)) ws = Some w.
Proof.
  intros Hident Hin. unfold findOne.
  induction ws as [|x ws IH]; [inversion Hin|].
  rewrite fmap_cons in Hident. apply NoDup_cons in Hident as [Hxi Hident].
  apply elem_of_cons in Hin as [->|Hin].
  - rewrite filter_cons_True; [reflexivity|].
    rewrite bool_decide_eq_true_2 by reflexivity. exact I.
  - rewrite filter_cons_False; [apply IH; assumption|].
    rewrite bool_decide_eq_false_2; [intros []|].
    intros Heq. apply Hxi. rewrite Heq. apply list_elem_of_fmap_2, Hin.
Qed.

Lemma cancelJob_unfold_assigned jobId reason now db job w :
  jobs db !! jobId = Some job ->
  Job.assignedWorker job = Some (Worker.identifier w) ->
  Worker.identifier w <> ""%string ->
  NoDup (Worker.identifier <$> workers db) ->
  w ∈ workers db ->
  cancelJob jobId reason now db
  = (mkDB (<[jobId :=
               Job.addLog "info"
                 ("Job cancelled: " +:+ JS.optstr_or reason "No reason provided") now
                 (Job.updateStatus Job.cancelled None now job)]> (jobs db))
          (saveWorker (Worker.completeJob false 0%Qc w) (workers db)) (issued db),
     true).
Proof.
  intros Hjob Hassigned Hname Hident Hin. unfold cancelJob. rewrite Hjob.
  cbn [Job.assignedWorker Job.updateStatus Job.addLog Job.with_updatedAt Job.with_execution
       Job.with_status].
  rewrite Hassigned.
  assert (Htruthy : JS.truthy (Worker.identifier w) = true).
  { destruct (Worker.identifier w); [contradiction|reflexivity]. }
  rewrite Htruthy, (findOne_unique w (workers db) Hident Hin). reflexivity.
Qed.

(** X22. Cancelling does not clear a job's assignment and releases the
    assigned worker on every call: for a job assigned to a worker of a
    pool with distinct identifiers and [_id]s, the cancelled job still
    names the worker, the worker is in the pool with [completeJob(false,
    0)] applied (one more processed job, counter down by one but not
    below 0), and cancelling the same job again applies it once more. *)
Theorem cancel_releases_worker_on_every_call
        (jobId : string) (r1 r2 : option string) (t1 t2 : Z)
        (db : DB) (job : Job.IJob) (w : Worker.IWorker) :
  jobs db !! jobId = Some job ->
  Job.assignedWorker job = Some (Worker.identifier w) ->
  Worker.identifier w <> ""%string ->
  NoDup (Worker.identifier <$> workers db) ->
  NoDup (Worker._id <$> workers db) ->
  w ∈ workers db ->
  let db1 := (cancelJob jobId r1 t1 db).1 in
  let db2 := (cancelJob jobId r2 t2 db1).1 in
  Job.assignedWorker <$> jobs db1 !! jobId = Some (Some (Worker.identifier w))
  /\ Worker.completeJob false 0%Qc w ∈ workers db1
  /\ Worker.completeJob false 0%Qc (Worker.completeJob false 0%Qc w) ∈ workers db2
  /\ Worker.totalJobsProcessed
       (Worker.resources (Worker.completeJob false 0%Qc (Worker.completeJob false 0%Qc w)))
     = Worker.totalJobsProcessed (Worker.resources w) + 2
  /\ Worker.currentJobs
       (Worker.resources (Worker.completeJob false 0%Qc (Worker.completeJob false 0%Qc w)))
     = Z.max 0 (Worker.currentJobs (Worker.resources w) - 2)
  /\ Job.status <$> jobs db2 !! jobId = Some Job.cancelled.
Proof.
  intros Hjob Hassigned Hname Hident Hids Hin db1 db2. subst db2 db1.
  rewrite (cancelJob_unfold_assigned jobId r1 t1 db job w Hjob Hassigned Hname Hident Hin).
  cbn [fst].
  set (w1 := Worker.completeJob false 0%Qc w).
  set (job1 := Job.addLog _ _ _ _).
  assert (Hin1 : w1 ∈ saveWorker w1 (workers db)).
  { eapply StoreFacts.saveWorker_elem; [exact Hin|].
    apply StoreFacts.id_completeJob. }
  assert (Hident1 : NoDup (Worker.identifier <$> saveWorker w1 (workers db))).
  { replace (Worker.identifier <$> saveWorker w1 (workers db))
      with (Worker.identifier <$> workers db); [exact Hident|].
    unfold saveWorker. rewrite <- list_fmap_compose. apply list_fmap_ext.
    intros i x Hx. cbn. case_decide as Hsame; [|reflexivity].
    unfold w1 in Hsame |- *. rewrite StoreFacts.id_completeJob in Hsame.
    rewrite StoreFacts.identifier_completeJob. f_equal.
    eapply (StoreFacts.NoDup_fmap_elem_inj Worker._id);
      [exact Hids| |exact Hin|exact Hsame].
    eapply list_elem_of_lookup_2, Hx. }
  assert (Hw1 : Worker.identifier w1 = Worker.identifier w)
    by apply StoreFacts.identifier_completeJob.
  rewrite (cancelJob_unfold_assigned jobId r2 t2 _ job1 w1).
  - cbn [fst jobs workers]. rewrite !lookup_insert_eq.
    split; [cbn; rewrite Hassigned; reflexivity|]. split; [exact Hin1|].
    split.
    + rewrite StoreFacts.saveWorker_twice
        by (rewrite StoreFacts.id_completeJob; reflexivity).
      eapply StoreFacts.saveWorker_elem; [exact Hin|].
      unfold w1. rewrite !StoreFacts.id_completeJob. reflexivity.
    + split; [|split; [|reflexivity]].
      * pose proof (WorkerLifecycleFacts.totalJobsProcessed_step w1
                      (Worker.Complete false 0%Qc)) as H2.
        pose proof (WorkerLifecycleFacts.totalJobsProcessed_step w
                      (Worker.Complete false 0%Qc)) as H1.
        cbn [Worker.step] in H1, H2. fold w1 in H1. rewrite H2, H1. lia.
      * rewrite !WorkerFacts.currentJobs_completeJob. fold w1.
        unfold w1. rewrite WorkerFacts.currentJobs_completeJob. lia.
  - cbn [jobs]. apply lookup_insert_eq.
  - unfold job1. cbn. rewrite Hassigned, Hw1. reflexivity.
  - rewrite Hw1. exact Hname.
  - exact Hident1.
  - exact Hin1.
Qed.

Lemma cancel_releases_worker_on_every_call_witness :
  let db1 := (cancelJob "j1" None 500 Sample.store_after_completion).1 in
  let db2 := (cancelJob "j1" None 600 db1).1 in
  Job.assignedWorker <$> jobs db1 !! "j1"
  = Some (Some (Worker.identifier (Sample.worker "w1" 1 1 1 10)))
  /\ Worker.completeJob false 0%Qc (Sample.worker "w1" 1 1 1 10) ∈ workers db1
  /\ Worker.completeJob false 0%Qc (Worker.completeJob false 0%Qc (Sample.worker "w1" 1 1 1 10))
     ∈ workers db2
  /\ Worker.totalJobsProcessed
       (Worker.resources
          (Worker.completeJob false 0%Qc
             (Worker.completeJob false 0%Qc (Sample.worker "w1" 1 1 1 10))))
     = Worker.totalJobsProcessed (Worker.resources (Sample.worker "w1" 1 1 1 10)) + 2
  /\ Worker.currentJobs
       (Worker.resources
          (Worker.completeJob false 0%Qc
             (Worker.completeJob false 0%Qc (Sample.worker "w1" 1 1 1 10))))
     = Z.max 0 (Worker.currentJobs (Worker.resources (Sample.worker "w1" 1 1 1 10)) - 2)
  /\ Job.status <$> jobs db2 !! "j1" = Some Job.cancelled.
Proof.
  apply (cancel_releases_worker_on_every_call "j1" None None 500 600
           Sample.store_after_completion Sample.completed_job (Sample.worker "w1" 1 1 1 10)).
  - reflexivity.
  - reflexivity.
  - discriminate.
  - apply (bool_decide_unpack
             (NoDup (Worker.identifier <$> workers Sample.store_after_completion))).
    vm_compute. exact I.
  - apply (bool_decide_unpack (NoDup (Worker._id <$> workers Sample.store_after_completion))).
    vm_compute. exact I.
  - left.
Defined.

End CancelEffects.
